(** * Vantage integration: a shallow embedding of the adapter code

    The integration under [custom_components/vantage] is glue between a
    home-automation hub and the client library of a lighting controller.
    This development embeds the parts of it that carry behaviour
    (device-registry reconciliation, the entity state projections and the
    event bridge) and proves the properties stated for them.

    Layout:
    - [Py]      the Python primitives the code relies on (exceptions,
                binary64 floats, [round], [int], [str], [split]);
    - [Hass], [DeviceRegistry]
                the pieces of the host platform the code calls
                (range scaling, logging, device registry);
    - [Vantage] the object model of the client library;
    - [Light], [Number], [Switch], [Device], [Integration]
                one module per source file;
    - [Spec], [DeviceSpec]
                the predicates the statements are written with;
    - [LightEntities], [Store], [DeviceState], [MoreSpec]
                the remaining light entities, the client store with
                unloading, device setup with the registry it leaves on
                failure, and the predicates of their statements;
    - the properties, one module per group of source files. *)

From Stdlib Require Import ZArith List String Ascii Bool Lia Floats.
From Stdlib Require Import DecimalString DecimalZ DecimalPos.
Import ListNotations.

Set Warnings "-register-all".

Local Open Scope string_scope.
Local Open Scope Z_scope.

(* ================================================================== *)
(** * Python primitives *)
(* ================================================================== *)

Module Py.

(** An exception is an instance of a class; [exn_bases] lists the proper
    ancestors of that class, so that an [except C] clause matches when [C]
    is the class itself or one of its ancestors.  [exn_cause] is the
    exception named by [raise ... from err]. *)
Inductive exn : Type :=
  | Exn (cls : string) (bases : list string) (cause : option exn).

Definition exn_cls (e : exn) : string := let 'Exn c _ _ := e in c.
Definition exn_bases (e : exn) : list string := let 'Exn _ b _ := e in b.
Definition exn_cause (e : exn) : option exn := let 'Exn _ _ c := e in c.

Definition isinstance_exn (e : exn) (cls : string) : bool :=
  existsb (String.eqb cls) (exn_cls e :: exn_bases e).

Definition ValueError : exn := Exn "ValueError" ["Exception"] None.
Definition OverflowError : exn :=
  Exn "OverflowError" ["ArithmeticError"; "Exception"] None.
Definition ZeroDivisionError : exn :=
  Exn "ZeroDivisionError" ["ArithmeticError"; "Exception"] None.
Definition RuntimeError : exn := Exn "RuntimeError" ["Exception"] None.

(** The outcome of evaluating an expression or running a function body:
    a value, or a raised exception that unwinds to the caller. *)
Inductive result (A : Type) : Type :=
  | Ok (a : A)
  | Raise (e : exn).
Arguments Ok {A} a.
Arguments Raise {A} e.

Definition bind {A B} (r : result A) (k : A -> result B) : result B :=
  match r with
  | Ok a => k a
  | Raise e => Raise e
  end.

Definition fmap {A B} (f : A -> B) (r : result A) : result B :=
  bind r (fun a => Ok (f a)).

Declare Scope py_scope.
Delimit Scope py_scope with py.
Notation "x <- e ;; k" := (bind e (fun x => k))
  (at level 61, e at next level, right associativity) : py_scope.

Local Open Scope py_scope.

(** A generator expression evaluated left to right: the first component
    that raises aborts the whole comprehension. *)
Fixpoint traverse {A B} (f : A -> result B) (l : list A) : result (list B) :=
  match l with
  | [] => Ok []
  | a :: l' => b <- f a ;; bs <- traverse f l' ;; Ok (b :: bs)
  end.

(** ** binary64 floats

    Python's [float] is the IEEE 754 binary64 format with round to nearest,
    ties to even; it is embedded as Rocq's primitive [float], and the exact
    value of a float is read off its [spec_float] decomposition. *)

(** [float(n)] for an [int]: the nearest float, [OverflowError] when [n]
    is too large for the format. *)
Definition float_of_int (z : Z) : result float :=
  match binary_normalize prec emax z 0 false with
  | S754_infinity _ => Raise OverflowError
  | sf => Ok (SF2Prim sf)
  end.

(** The integer [z] as an unrounded [spec_float] ([m * 2^0]). *)
Definition SF_of_Z (z : Z) : spec_float :=
  match z with
  | Z0 => S754_zero false
  | Zpos p => S754_finite false p 0
  | Zneg p => S754_finite true p 0
  end.

(** [a / b] on two [int]s: true division, the float nearest to the exact
    quotient (not the quotient of the two rounded operands). *)
Definition int_truediv (a b : Z) : result float :=
  if b =? 0 then Raise ZeroDivisionError
  else match SFdiv prec emax (SF_of_Z a) (SF_of_Z b) with
       | S754_infinity _ => Raise OverflowError
       | sf => Ok (SF2Prim sf)
       end.

(** [x / y] on two floats. *)
Definition float_truediv (x y : float) : result float :=
  if PrimFloat.eqb y 0%float then Raise ZeroDivisionError
  else Ok (PrimFloat.div x y).

(** Largest integer not above [m * 2^e], for [e < 0]; and the remainder
    information needed to round. *)
Definition round_half_even_pos (m : positive) (e : Z) : Z :=
  if 0 <=? e then Z.shiftl (Zpos m) e
  else
    let d := Z.shiftl 1 (- e) in
    let q := Zpos m / d in
    let r := Zpos m mod d in
    if 2 * r <? d then q
    else if d <? 2 * r then q + 1
    else if Z.even q then q else q + 1.

Definition trunc_pos (m : positive) (e : Z) : Z :=
  if 0 <=? e then Z.shiftl (Zpos m) e
  else Zpos m / Z.shiftl 1 (- e).

(** [round(x)] with one argument: the nearest [int], ties to even. *)
Definition round (x : float) : result Z :=
  match Prim2SF x with
  | S754_zero _ => Ok 0
  | S754_infinity _ => Raise OverflowError
  | S754_nan => Raise ValueError
  | S754_finite s m e => Ok (cond_Zopp s (round_half_even_pos m e))
  end.

(** [int(x)] on a float: truncation towards zero. *)
Definition int_of_float (x : float) : result Z :=
  match Prim2SF x with
  | S754_zero _ => Ok 0
  | S754_infinity _ => Raise OverflowError
  | S754_nan => Raise ValueError
  | S754_finite s m e => Ok (cond_Zopp s (trunc_pos m e))
  end.

(** ** The numeric tower: [int] and [float] operands of one expression *)

Inductive num : Type :=
  | Int (z : Z)
  | Float (f : float).

Definition to_float (n : num) : result float :=
  match n with
  | Int z => float_of_int z
  | Float f => Ok f
  end.

Definition lift_float (op : float -> float -> float) (a b : num)
  : result num :=
  x <- to_float a ;; y <- to_float b ;; Ok (Float (op x y)).

Definition num_add (a b : num) : result num :=
  match a, b with
  | Int x, Int y => Ok (Int (x + y))
  | _, _ => lift_float PrimFloat.add a b
  end.

Definition num_sub (a b : num) : result num :=
  match a, b with
  | Int x, Int y => Ok (Int (x - y))
  | _, _ => lift_float PrimFloat.sub a b
  end.

Definition num_mul (a b : num) : result num :=
  match a, b with
  | Int x, Int y => Ok (Int (x * y))
  | _, _ => lift_float PrimFloat.mul a b
  end.

Definition num_truediv (a b : num) : result num :=
  match a, b with
  | Int x, Int y => fmap Float (int_truediv x y)
  | _, _ => x <- to_float a ;; y <- to_float b ;;
            fmap Float (float_truediv x y)
  end.

(** [round(n)]: an [int] is its own rounding. *)
Definition num_round (n : num) : result Z :=
  match n with
  | Int z => Ok z
  | Float f => round f
  end.

(** [int(n)]. *)
Definition num_int (n : num) : result Z :=
  match n with
  | Int z => Ok z
  | Float f => int_of_float f
  end.

(** ** Strings *)

(** [str(n)] for an [int]: the decimal numeral, with a leading [-] for a
    negative one. *)
Definition str (z : Z) : string := NilZero.string_of_int (Z.to_int z).

(** A string is a sequence of characters with code points below 256.
    Among these, the whitespace that [int] skips around a numeral is
    U+0009..U+000D, U+0020, U+0085 and U+00A0 (not U+001C..U+001F, which
    [str.strip] would drop too), and the decimal digits are [0]..[9]. *)
Definition is_space (c : ascii) : bool :=
  let n := N_of_ascii c in
  ((9 <=? n) && (n <=? 13) || (n =? 32) || (n =? 133) || (n =? 160))%N.

Definition is_digit (c : ascii) : bool :=
  let n := N_of_ascii c in ((48 <=? n) && (n <=? 57))%N.

Fixpoint lstrip (s : string) : string :=
  match s with
  | EmptyString => EmptyString
  | String c s' => if is_space c then lstrip s' else s
  end.

Fixpoint rstrip (s : string) : string :=
  match s with
  | EmptyString => EmptyString
  | String c s' =>
      match rstrip s' with
      | EmptyString => if is_space c then EmptyString else String c EmptyString
      | t => String c t
      end
  end.

(** The string without the whitespace around it. *)
Definition strip (s : string) : string := lstrip (rstrip s).

(** The sign of a numeral, and what follows it. *)
Definition signed (s : string) : bool * string :=
  match s with
  | String c s' =>
      if Ascii.eqb c "-" then (true, s')
      else if Ascii.eqb c "+" then (false, s')
      else (false, s)
  | EmptyString => (false, s)
  end.

(** The digits of a numeral without sign: at least one digit, and single
    underscores only between two digits.  [after_digit] tells whether the
    character before was a digit. *)
Fixpoint numeral_digits (after_digit : bool) (s : string) : option string :=
  match s with
  | EmptyString => if after_digit then Some EmptyString else None
  | String c s' =>
      if is_digit c then option_map (String c) (numeral_digits true s')
      else if Ascii.eqb c "_" && after_digit then numeral_digits false s'
      else None
  end.

(** [int(s)] for a string: surrounding whitespace is dropped, then an
    optional sign and a decimal numeral are read (leading zeros and single
    underscores between digits allowed); anything else raises
    [ValueError].  The interpreter's limit on the number of digits in
    conversions between [int] and [str] (a setting, 4300 by default) is
    left out, here as in [str]. *)
Definition int_of_str (s : string) : result Z :=
  let (negative, body) := signed (strip s) in
  match numeral_digits false body with
  | Some ds =>
      match NilEmpty.uint_of_string ds with
      | Some u =>
          Ok (Z.of_int (if negative then Decimal.Neg u else Decimal.Pos u))
      | None => Raise ValueError
      end
  | None => Raise ValueError
  end.

(** [s.split(sep)[0]]: what precedes the first occurrence of [sep]. *)
Fixpoint split_head (sep : ascii) (s : string) : string :=
  match s with
  | EmptyString => EmptyString
  | String c s' =>
      if Ascii.eqb c sep then EmptyString else String c (split_head sep s')
  end.

(** What follows the first occurrence of [sep], if there is one. *)
Fixpoint split_tail (sep : ascii) (s : string) : option string :=
  match s with
  | EmptyString => None
  | String c s' => if Ascii.eqb c sep then Some s' else split_tail sep s'
  end.

(** [s.split(sep, 1)]: one or two parts. *)
Definition split_once (sep : ascii) (s : string) : list string :=
  match split_tail sep s with
  | Some rest => [split_head sep s; rest]
  | None => [s]
  end.

(** ** Dynamically typed values

    The objects this code reads carry values of type
    [int | str | bool | None]; projections may also produce a [float]. *)
Inductive value : Type :=
  | VNone
  | VBool (b : bool)
  | VInt (z : Z)
  | VFloat (f : float)
  | VStr (s : string).

(** [isinstance(v, int)]: [bool] is a subclass of [int]. *)
Definition isinstance_int (v : value) : bool :=
  match v with
  | VInt _ | VBool _ => true
  | _ => false
  end.

(** The integer an [int] instance stands for in arithmetic. *)
Definition int_value (v : value) : option Z :=
  match v with
  | VInt z => Some z
  | VBool b => Some (if b then 1 else 0)
  | _ => None
  end.

(** [bool(v)]: truth value testing. *)
Definition truthy (v : value) : bool :=
  match v with
  | VNone => false
  | VBool b => b
  | VInt z => negb (z =? 0)
  | VFloat f => negb (PrimFloat.eqb f 0%float)
  | VStr s => negb (String.eqb s "")
  end.

End Py.

Import Py.
Local Open Scope py_scope.

(* ================================================================== *)
(** * Host platform *)
(* ================================================================== *)

Module Hass.

(** ** [homeassistant.util.scaling] and [homeassistant.util.color]

    These helpers belong to the host platform, not to the integration;
    they are transcribed from the platform so that the integration's calls
    can be evaluated.  A range is a pair [(low, high)]. *)

Definition range : Type := (num * num)%type.

(** [low_high_range[1] - low_high_range[0] + 1] *)
Definition states_in_range (r : range) : result num :=
  d <- num_sub (snd r) (fst r) ;; num_add d (Int 1).

(** [(value - source_offset) * states_in_range(target)
      / states_in_range(source) + target_offset] *)
Definition scale_to_ranged_value (source target : range) (v : num)
  : result num :=
  source_offset <- num_sub (fst source) (Int 1) ;;
  target_offset <- num_sub (fst target) (Int 1) ;;
  shifted <- num_sub v source_offset ;;
  nt <- states_in_range target ;;
  scaled <- num_mul shifted nt ;;
  ns <- states_in_range source ;;
  q <- num_truediv scaled ns ;;
  num_add q target_offset.

(** [scale_to_ranged_value((1, 255), low_high_range, brightness)] *)
Definition brightness_to_value (r : range) (brightness : Z) : result num :=
  scale_to_ranged_value (Int 1, Int 255) r (Int brightness).

(** [min(255, max(1, round(scale_to_ranged_value(range, (1, 255), value))))] *)
Definition value_to_brightness (r : range) (v : num) : result Z :=
  x <- scale_to_ranged_value r (Int 1, Int 255) v ;;
  n <- num_round x ;;
  Ok (Z.min 255 (Z.max 1 n)).

(** ** Light platform constants *)

Module ColorMode.
Inductive t : Type :=
  | ONOFF | BRIGHTNESS | COLOR_TEMP | HS | RGB | RGBW.

Definition eqb (a b : t) : bool :=
  match a, b with
  | ONOFF, ONOFF | BRIGHTNESS, BRIGHTNESS | COLOR_TEMP, COLOR_TEMP
  | HS, HS | RGB, RGB | RGBW, RGBW => true
  | _, _ => false
  end.
End ColorMode.

(** [LightEntityFeature.TRANSITION], a bit of an [IntFlag]. *)
Definition TRANSITION : Z := 32.

(** ** Logging *)

Inductive log_level : Type := DEBUG | INFO | WARNING | ERROR.

(** An argument of a log call, kept as the object it is rather than as
    its rendering: a string, a member of an enumeration (by name), or an
    object of the client (by id). *)
Inductive log_arg : Type :=
  | ArgStr (s : string)
  | ArgEnum (member : string)
  | ArgObject (vid : Z).

(** One call of a logger method: the level, the format string and the
    arguments. *)
Record log_record : Type := LogRecord {
  log_lvl : log_level;
  log_msg : string;
  log_args : list log_arg;
}.

Definition logger : Type := list log_record.

(** [LOGGER.warning(msg, *args)] *)
Definition warning (log : logger) (msg : string) (args : list log_arg)
  : logger :=
  (log ++ [LogRecord WARNING msg args])%list.

End Hass.

(* ================================================================== *)
(** * light.py *)
(* ================================================================== *)

Module Light.
Import Hass.

(** [LEVEL_RANGE = (1, 100)]: the controller's level range used when
    converting between platform brightness and controller levels. *)
Definition LEVEL_RANGE : range := (Int 1, Int 100).

(** What the light entities read from a load: its level, a number or
    [None] while unknown. *)
Record Load : Type := {
  load_id : Z;
  load_name : string;
  load_level : option num;
}.

(** The keyword arguments of [async_turn_on] that the load entity reads. *)
Record turn_on_kwargs : Type := {
  kw_transition : option num;
  kw_brightness : option Z;
}.

(** The calls on the remote object that the entity awaits. *)
Inductive command : Type :=
  | TurnOn (transition level : num)
  | TurnOff (transition : num).

(** [kwargs.get(key, default)] *)
Definition get_default {A} (o : option A) (d : A) : A :=
  match o with
  | Some a => a
  | None => d
  end.

(** [VantageLight.brightness]:
    [None] when the level is unknown, otherwise
    [value_to_brightness(LEVEL_RANGE, float(self.obj.level))]. *)
Definition brightness (obj : Load) : result (option Z) :=
  match load_level obj with
  | None => Ok None
  | Some l =>
      f <- to_float l ;;
      b <- value_to_brightness LEVEL_RANGE (Float f) ;;
      Ok (Some b)
  end.

(** [VantageLight.async_turn_on]: the call it forwards to the load. *)
Definition async_turn_on (kwargs : turn_on_kwargs) : result command :=
  let transition := get_default (kw_transition kwargs) (Int 0) in
  level <- brightness_to_value LEVEL_RANGE
             (get_default (kw_brightness kwargs) 255) ;;
  Ok (TurnOn transition level).

(** [VantageLight.async_turn_off] *)
Definition async_turn_off (kwargs : turn_on_kwargs) : result command :=
  Ok (TurnOff (get_default (kw_transition kwargs) (Int 0))).

(** ** RGB loads *)

(** The colour-space tag of an RGB load.  The entity names four members of
    the client library's enumeration; [Other] stands for every member it
    does not name. *)
Module ColorType.
Inductive t : Type :=
  | HSL | RGB | RGBW | CCT
  | Other (member : string).

Definition member (c : t) : string :=
  match c with
  | HSL => "HSL"
  | RGB => "RGB"
  | RGBW => "RGBW"
  | CCT => "CCT"
  | Other m => m
  end.
End ColorType.

Record RGBLoad : Type := {
  rgb_id : Z;
  rgb_name : string;
  color_type : ColorType.t;
  min_temp : Z;
  max_temp : Z;
}.

(** The [_attr_*] fields of a light entity that [__post_init__] assigns. *)
Record LightAttrs : Type := {
  supported_color_modes : list ColorMode.t;
  color_mode : option ColorMode.t;
  supported_features : Z;
  min_color_temp_kelvin : option Z;
  max_color_temp_kelvin : option Z;
}.

(** [set.add] *)
Definition set_add (m : ColorMode.t) (s : list ColorMode.t)
  : list ColorMode.t :=
  if existsb (ColorMode.eqb m) s then s else (s ++ [m])%list.

(** One arm of the [match]: add the mode to the (just emptied) set, make
    it the current mode, and optionally raise the transition flag. *)
Definition with_mode (m : ColorMode.t) (transition : bool) (a : LightAttrs)
  : LightAttrs :=
  {| supported_color_modes := set_add m [];
     color_mode := Some m;
     supported_features :=
       if transition then Z.lor (supported_features a) TRANSITION
       else supported_features a;
     min_color_temp_kelvin := min_color_temp_kelvin a;
     max_color_temp_kelvin := max_color_temp_kelvin a |}.

Definition with_temp_range (lo hi : Z) (a : LightAttrs) : LightAttrs :=
  {| supported_color_modes := supported_color_modes a;
     color_mode := color_mode a;
     supported_features := supported_features a;
     min_color_temp_kelvin := Some lo;
     max_color_temp_kelvin := Some hi |}.

(** [VantageRGBLight.__post_init__]: the entity attributes and the log
    after initialisation.  The method has no failing operation, so the
    embedding is a total function. *)
Definition rgb_post_init (obj : RGBLoad) (a : LightAttrs) (log : logger)
  : LightAttrs * logger :=
  match color_type obj with
  | ColorType.HSL => (with_mode ColorMode.HS true a, log)
  | ColorType.RGB => (with_mode ColorMode.RGB true a, log)
  | ColorType.RGBW => (with_mode ColorMode.RGBW false a, log)
  | ColorType.CCT =>
      (with_mode ColorMode.COLOR_TEMP true
         (with_temp_range (min_temp obj) (max_temp obj) a), log)
  | _ =>
      (with_mode ColorMode.BRIGHTNESS true a,
       warning log "Unsupported color type %s for RGB light %s"
         [ArgEnum (ColorType.member (color_type obj));
          ArgStr (rgb_name obj)])
  end.

(** [scale_color_brightness]: a colour tuple is embedded as the list of
    its components; [brightness] is [int | None]. *)
Definition scale_component (brightness c : Z) : result Z :=
  x <- int_truediv (c * brightness) 255 ;;
  n <- round x ;;
  num_int (Int n).

Definition scale_color_brightness (color : list Z) (brightness : option Z)
  : result (list Z) :=
  match brightness with
  | None => Ok color
  | Some b => traverse (scale_component b) color
  end.

End Light.

(* ================================================================== *)
(** * number.py and switch.py: variable-backed entities *)
(* ================================================================== *)

(** A controller variable as the entities see it. [is_fixed] is a property
    of the client library's object (a fixed-precision variable holds its
    value multiplied by 1000). *)
Record GMem : Type := {
  gmem_id : Z;
  gmem_name : string;
  tag_type : string;
  gmem_value : value;
  is_fixed : bool;
}.

Definition set_gmem_value (v : value) (obj : GMem) : GMem :=
  {| gmem_id := gmem_id obj;
     gmem_name := gmem_name obj;
     tag_type := tag_type obj;
     gmem_value := v;
     is_fixed := is_fixed obj |}.

(** The client's variable controller: the variables it knows, in
    enumeration order. *)
Definition gmem_controller : Type := list GMem.

(** [client.gmem.set_value(vid, value)]: the controller stores the value
    and the client's copy of the object follows. *)
Definition gmem_set_value (ctl : gmem_controller) (vid : Z) (v : value)
  : gmem_controller :=
  map (fun o => if gmem_id o =? vid then set_gmem_value v o else o) ctl.

(** [client.gmem.get(vid)] *)
Definition gmem_get (ctl : gmem_controller) (vid : Z) : option GMem :=
  find (fun o => gmem_id o =? vid) ctl.

Module Switch.

(** [VantageVariableSwitch.is_on] *)
Definition is_on (obj : GMem) : option bool :=
  if isinstance_int (gmem_value obj) then Some (truthy (gmem_value obj))
  else None.

(** [VantageVariableSwitch.async_turn_on] / [async_turn_off]:
    [self.obj.set_value(True)], [self.obj.set_value(False)]. *)
Definition async_turn_on (ctl : gmem_controller) (obj : GMem)
  : gmem_controller :=
  gmem_set_value ctl (gmem_id obj) (VBool true).

Definition async_turn_off (ctl : gmem_controller) (obj : GMem)
  : gmem_controller :=
  gmem_set_value ctl (gmem_id obj) (VBool false).

End Switch.

Module Number.
Import Hass.

(** Units and device classes of the number platform that the entity
    assigns. *)
Inductive unit_of_measurement : Type :=
  | PERCENTAGE
  | MILLISECONDS
  | SECONDS
  | CELSIUS.

Inductive device_class : Type :=
  | TEMPERATURE.

(** The [_attr_*] fields of a number entity that [__post_init__] may
    assign; a field left at [None] keeps the platform's default. *)
Record NumberAttrs : Type := {
  native_min_value : option num;
  native_max_value : option num;
  native_step : option num;
  native_unit_of_measurement : option unit_of_measurement;
  number_device_class : option device_class;
}.

Definition with_bounds (lo hi : num) (a : NumberAttrs) : NumberAttrs :=
  {| native_min_value := Some lo;
     native_max_value := Some hi;
     native_step := native_step a;
     native_unit_of_measurement := native_unit_of_measurement a;
     number_device_class := number_device_class a |}.

Definition with_unit (u : unit_of_measurement) (a : NumberAttrs)
  : NumberAttrs :=
  {| native_min_value := native_min_value a;
     native_max_value := native_max_value a;
     native_step := native_step a;
     native_unit_of_measurement := Some u;
     number_device_class := number_device_class a |}.

Definition with_device_class (c : device_class) (a : NumberAttrs)
  : NumberAttrs :=
  {| native_min_value := native_min_value a;
     native_max_value := native_max_value a;
     native_step := native_step a;
     native_unit_of_measurement := native_unit_of_measurement a;
     number_device_class := Some c |}.

Definition with_step (s : num) (a : NumberAttrs) : NumberAttrs :=
  {| native_min_value := native_min_value a;
     native_max_value := native_max_value a;
     native_step := Some s;
     native_unit_of_measurement := native_unit_of_measurement a;
     number_device_class := number_device_class a |}.

(** The tag types that [__post_init__] has a [case] for. *)
Definition known_tag_types : list string :=
  ["DeviceUnits"; "Level"; "Load"; "Task"; "Number"; "Delay"; "Seconds";
   "DegC"; "Decimal"].

(** [VantageNumberVariable.__post_init__]: a [match] on the tag type, the
    cases tried in order.  [0.001] is the float the literal denotes. *)
Definition post_init (obj : GMem) (a : NumberAttrs) (log : logger)
  : NumberAttrs * logger :=
  let t := tag_type obj in
  if String.eqb t "DeviceUnits" then
    (with_bounds (Int 0) (Float 604800%float) a, log)
  else if String.eqb t "Level" then
    (with_unit PERCENTAGE (with_bounds (Int 0) (Float 100%float) a), log)
  else if String.eqb t "Load" || String.eqb t "Task" then
    (with_bounds (Int 1) (Int 10000) a, log)
  else if String.eqb t "Number" then
    (with_bounds (Int (- 2 ^ 31)) (Int (2 ^ 31 - 1)) a, log)
  else if String.eqb t "Delay" then
    (with_bounds (Int 0) (Int (24 * 60 * 60 * 1000))
       (with_unit MILLISECONDS a), log)
  else if String.eqb t "Seconds" then
    (with_bounds (Float 0%float) (Int (7 * 24 * 60 * 60))
       (with_unit SECONDS a), log)
  else if String.eqb t "DegC" then
    (with_unit CELSIUS
       (with_device_class TEMPERATURE
          (with_bounds (Int (-40)) (Int 150) a)), log)
  else if String.eqb t "Decimal" then
    (with_step (Float 0x1.0624dd2f1a9fcp-10%float)
       (with_bounds (Int (- 2 ^ 31)) (Int (2 ^ 31)) a), log)
  else
    (a, warning log "Unknown number type %s: %s"
          [ArgStr t; ArgObject (gmem_id obj)]).

(** [VantageNumberVariable.native_value]:
    for an [int] instance, the value divided by 1000 when the variable is
    fixed-precision and the value itself otherwise; [None] for anything
    that is not an [int] instance. *)
Definition native_value (obj : GMem) : result value :=
  let v := gmem_value obj in
  match int_value v with
  | Some z =>
      if is_fixed obj then fmap VFloat (int_truediv z 1000)
      else Ok v
  | None => Ok VNone
  end.

(** [VantageNumberVariable.async_set_native_value]:
    [int(value * 1000)] for a fixed-precision variable, [int(value)]
    otherwise, handed to [client.gmem.set_value]. *)
Definition native_to_remote (obj : GMem) (v : float) : result Z :=
  if is_fixed obj then
    scaled <- num_mul (Float v) (Int 1000) ;; num_int scaled
  else num_int (Float v).

Definition async_set_native_value
    (ctl : gmem_controller) (obj : GMem) (v : float)
  : result gmem_controller :=
  n <- native_to_remote obj v ;;
  Ok (gmem_set_value ctl (gmem_id obj) (VInt n)).

(** Set a value, then read the entity's state from the client's updated
    copy of the variable. *)
Definition set_then_read (ctl : gmem_controller) (obj : GMem) (v : float)
  : result value :=
  ctl' <- async_set_native_value ctl obj v ;;
  match gmem_get ctl' (gmem_id obj) with
  | Some obj' => native_value obj'
  | None => Ok VNone
  end.

End Number.

(* ================================================================== *)
(** * The client library's object model *)
(* ================================================================== *)

Module Vantage.

(** [VantageEvent]: the kinds of notification a controller delivers. *)
Inductive VantageEvent : Type :=
  | OBJECT_ADDED
  | OBJECT_UPDATED
  | OBJECT_DELETED.

Definition VantageEvent_eqb (a b : VantageEvent) : bool :=
  match a, b with
  | OBJECT_ADDED, OBJECT_ADDED
  | OBJECT_UPDATED, OBJECT_UPDATED
  | OBJECT_DELETED, OBJECT_DELETED => true
  | _, _ => false
  end.

(** A serial number is an [int] or a string, depending on the object. *)
Inductive serial : Type :=
  | SerialInt (z : Z)
  | SerialStr (s : string).

(** A [SystemObject] as [vantage_device_info] reads it.
    - [is_master], [is_station]: [isinstance(obj, Master)],
      [isinstance(obj, StationObject)];
    - [obj_area]: the area id of a [LocationObject], [None] when the object
      is not one or has no area;
    - [obj_serial]: the [serial_number] attribute, [None] when unset;
    - [obj_parent]: [obj.parent.id] when the object satisfies the
      [ChildObject] protocol (has a [parent] attribute);
    - [obj_master]: the id of the controller the object belongs to;
    - [application_version]: what [get_application_version()] answers
      for a master. *)
Record SystemObject : Type := {
  obj_id : Z;
  obj_name : string;
  display_name : string;
  vantage_type : string;
  is_master : bool;
  is_station : bool;
  obj_area : option Z;
  obj_serial : option serial;
  obj_parent : option Z;
  obj_master : Z;
  application_version : string;
}.

Record Area : Type := {
  area_id : Z;
  area_name : string;
}.

(** A controller is the collection of the objects of one category, in
    enumeration order. *)
Definition controller : Type := list SystemObject.

(** [controller.get(vid)] *)
Definition get (ctl : controller) (vid : Z) : option SystemObject :=
  find (fun o => obj_id o =? vid) ctl.

Definition areas_get (areas : list Area) (vid : Z) : option Area :=
  find (fun a => area_id a =? vid) areas.

(** The client: one controller per category.  [others] gathers the
    controllers this file does not enumerate (loads, buttons, variables,
    ...). *)
Record Client : Type := {
  masters : controller;
  modules : controller;
  port_devices : controller;
  stations : controller;
  back_boxes : controller;
  areas : list Area;
  others : controller;
}.

(** The ids of every object the client holds. *)
Definition known_ids (c : Client) : list Z :=
  (map obj_id (masters c) ++ map obj_id (modules c)
   ++ map obj_id (port_devices c) ++ map obj_id (stations c)
   ++ map obj_id (back_boxes c) ++ map area_id (areas c)
   ++ map obj_id (others c))%list.

(** [vid in vantage]: does any controller hold an object with this id? *)
Definition contains (c : Client) (vid : Z) : bool :=
  existsb (Z.eqb vid) (known_ids c).

(** A button object of the configuration client. *)
Record Button : Type := {
  button_id : Z;
  button_name : string;
  button_parent_id : Z;
  pressed : option bool;
}.

End Vantage.

(* ================================================================== *)
(** * The host platform's device registry *)
(* ================================================================== *)

Module DeviceRegistry.

(** An identifier is a pair [(domain, id-within-domain)]. *)
Definition identifier : Type := (string * string)%type.

Definition identifier_eqb (a b : identifier) : bool :=
  String.eqb (fst a) (fst b) && String.eqb (snd a) (snd b).

(** [DeviceInfo], a dictionary in which every key is optional. *)
Record DeviceInfo : Type := {
  identifiers : option (list identifier);
  name : option string;
  manufacturer : option string;
  model : option string;
  suggested_area : option string;
  serial_number : option string;
  sw_version : option string;
  via_device : option identifier;
}.

(** The value of a key after [dict.update]: the new one when the other
    dictionary has the key. *)
Definition override {A} (old new : option A) : option A :=
  match new with
  | Some _ => new
  | None => old
  end.

(** [info.update(extra)] *)
Definition update (info extra : DeviceInfo) : DeviceInfo :=
  {| identifiers := override (identifiers info) (identifiers extra);
     name := override (name info) (name extra);
     manufacturer := override (manufacturer info) (manufacturer extra);
     model := override (model info) (model extra);
     suggested_area :=
       override (suggested_area info) (suggested_area extra);
     serial_number := override (serial_number info) (serial_number extra);
     sw_version := override (sw_version info) (sw_version extra);
     via_device := override (via_device info) (via_device extra) |}.

(** A record of the registry, as far as this integration deals with it:
    [dev_id] is the registry's own key for the record (what
    [async_remove_device] takes), [dev_config_entries] the config entries
    that claimed it (what [async_entries_for_config_entry] selects by) and
    [dev_identifiers] the identifiers it answers to.  What else the host
    keeps in a record is written by the host alone and never read by this
    code: the descriptive fields of the info, and the link to the record
    that [via_device] names, which the host resolves against the records
    present when it writes the record and clears when that record is
    removed.  None of this is part of the model's record, so two registries
    that are equal here have the same records with the same keys,
    identifiers and claims; their fields and links may differ. *)
Record DeviceEntry : Type := {
  dev_id : nat;
  dev_config_entries : list string;
  dev_identifiers : list identifier;
}.

Definition registry : Type := list DeviceEntry.

Definition has_identifier (i : identifier) (d : DeviceEntry) : bool :=
  existsb (identifier_eqb i) (dev_identifiers d).

(** [async_get_device(identifiers)]: the record that answers to one of the
    given identifiers. *)
Definition async_get_device (reg : registry) (ids : list identifier)
  : option DeviceEntry :=
  find (fun d => existsb (fun i => has_identifier i d) ids) reg.

(** [async_remove_device(device_id)] *)
Definition async_remove_device (reg : registry) (id : nat) : registry :=
  filter (fun d => negb (Nat.eqb (dev_id d) id)) reg.

(** [async_entries_for_config_entry(registry, entry_id)]: a list of the
    records claimed by the entry, taken before the caller's loop runs. *)
Definition async_entries_for_config_entry (reg : registry) (entry : string)
  : list DeviceEntry :=
  filter (fun d => existsb (String.eqb entry) (dev_config_entries d)) reg.

(** A key no record of the registry has. *)
Definition fresh_id (reg : registry) : nat :=
  S (fold_right Nat.max 0%nat (map dev_id reg)).

Definition add_entry (entry : string) (l : list string) : list string :=
  if existsb (String.eqb entry) l then l else (l ++ [entry])%list.

Definition merge_identifiers (old new : list identifier)
  : list identifier :=
  fold_left
    (fun acc i => if existsb (identifier_eqb i) acc then acc
                  else (acc ++ [i])%list)
    new old.

(** What [async_get_or_create] does to the key, the claims and the
    identifiers of the record it found or created: the key stays, the
    entry claims the record and the given identifiers are merged in. *)
Definition apply_info (entry : string) (info : DeviceInfo) (d : DeviceEntry)
  : DeviceEntry :=
  {| dev_id := dev_id d;
     dev_config_entries := add_entry entry (dev_config_entries d);
     dev_identifiers :=
       merge_identifiers (dev_identifiers d)
         (match identifiers info with Some l => l | None => [] end) |}.

Definition new_entry (id : nat) : DeviceEntry :=
  {| dev_id := id; dev_config_entries := []; dev_identifiers := [] |}.

Definition update_device (reg : registry) (id : nat)
    (f : DeviceEntry -> DeviceEntry) : registry :=
  map (fun d => if Nat.eqb (dev_id d) id then f d else d) reg.

(** [async_get_or_create(config_entry_id=entry, **info)]: look the record
    up by identifiers, create it when there is none, then update it.  Of
    the info, the identifiers are what reaches the model's record. *)
Definition async_get_or_create (reg : registry) (entry : string)
    (info : DeviceInfo) : registry :=
  let ids := match identifiers info with Some l => l | None => [] end in
  match async_get_device reg ids with
  | Some d => update_device reg (dev_id d) (apply_info entry info)
  | None => (reg ++ [apply_info entry info (new_entry (fresh_id reg))])%list
  end.

End DeviceRegistry.

(* ================================================================== *)
(** * device.py *)
(* ================================================================== *)

Module Device.
Import Vantage DeviceRegistry.

Section WithDomain.

(** [DOMAIN] comes from the integration's constants module; nothing here
    depends on its value. *)
Variable DOMAIN : string.

(** The identity of the device record of the object with id [vid]:
    [(DOMAIN, str(obj.id))]. *)
Definition device_identifier (vid : Z) : identifier := (DOMAIN, str vid).

(** Truth value and [str] of a serial number. *)
Definition serial_truthy (s : serial) : bool :=
  match s with
  | SerialInt z => negb (z =? 0)
  | SerialStr t => negb (String.eqb t "")
  end.

Definition serial_str (s : serial) : string :=
  match s with
  | SerialInt z => str z
  | SerialStr t => t
  end.

(** Manufacturer and model from [obj.vantage_type().split(".", 1)]. *)
Definition manufacturer_model (vantage_type : string) : string * string :=
  match split_once "." vantage_type with
  | p0 :: p1 :: _ => (p0, p1)
  | p0 :: [] => ("Vantage", p0)
  | [] => ("Vantage", "")
  end.

(** The [via_device] link of a non-master object: its parent when it has
    one that the client holds and that is not a back box, its master
    otherwise. *)
Definition via_device_of (client : Client) (obj : SystemObject)
  : identifier :=
  match obj_parent obj with
  | Some p =>
      if contains client p
         && negb (match get (back_boxes client) p with
                  | Some _ => true
                  | None => false
                  end)
      then (DOMAIN, str p)
      else (DOMAIN, str (obj_master obj))
  | None => (DOMAIN, str (obj_master obj))
  end.

(** [vantage_device_info(client, obj)] *)
Definition vantage_device_info (client : Client) (obj : SystemObject)
  : DeviceInfo :=
  let mm := manufacturer_model (vantage_type obj) in
  {| identifiers := Some [device_identifier (obj_id obj)];
     name := Some (display_name obj);
     manufacturer := Some (fst mm);
     model := Some (snd mm);
     suggested_area :=
       match obj_area obj with
       | Some a =>
           if negb (a =? 0) then
             option_map area_name (areas_get (areas client) a)
           else None
       | None => None
       end;
     serial_number :=
       if is_master obj || is_station obj then
         match obj_serial obj with
         | Some s => if serial_truthy s then Some (serial_str s) else None
         | None => None
         end
       else None;
     sw_version := None;
     via_device :=
       if negb (is_master obj) then Some (via_device_of client obj)
       else None |}.

(** [extra_master_info]: the firmware version, asked of the master. *)
Definition extra_info_fn : Type := SystemObject -> result DeviceInfo.

Definition extra_master_info (version_of : SystemObject -> result string)
  : extra_info_fn :=
  fun obj =>
    v <- version_of obj ;;
    Ok {| identifiers := None; name := None; manufacturer := None;
          model := None; suggested_area := None; serial_number := None;
          sw_version := Some v; via_device := None |}.

Section WithEntry.

Variable client : Client.
Variable entry_id : string.

(** [add_device] of [register_items] *)
Definition add_device (extra : option extra_info_fn) (reg : registry)
    (obj : SystemObject) : result registry :=
  let device_info := vantage_device_info client obj in
  device_info <-
    match extra with
    | Some f => e <- f obj ;; Ok (update device_info e)
    | None => Ok device_info
    end ;;
  Ok (async_get_or_create reg entry_id device_info).

(** [remove_device] of [register_items] *)
Definition remove_device (reg : registry) (obj : SystemObject) : registry :=
  match async_get_device reg [device_identifier (obj_id obj)] with
  | Some device => async_remove_device reg (dev_id device)
  | None => reg
  end.

(** [handle_device_event]: the callback subscribed to a controller. *)
Definition handle_device_event (extra : option extra_info_fn)
    (reg : registry) (event_type : VantageEvent) (obj : SystemObject)
  : result registry :=
  if VantageEvent_eqb event_type OBJECT_DELETED then
    Ok (remove_device reg obj)
  else add_device extra reg obj.

(** [register_items]: add every current member of the controller. *)
Fixpoint register_items (extra : option extra_info_fn)
    (ctl : controller) (reg : registry) : result registry :=
  match ctl with
  | [] => Ok reg
  | obj :: rest =>
      reg' <- add_device extra reg obj ;;
      register_items extra rest reg'
  end.

(** [next(x[1] for x in device.identifiers if x[0] == DOMAIN)]; an
    exhausted generator surfaces from a coroutine as [RuntimeError]. *)
Definition domain_device_id (d : DeviceEntry) : result string :=
  match find (fun x => String.eqb (fst x) DOMAIN) (dev_identifiers d) with
  | Some x => Ok (snd x)
  | None => Raise RuntimeError
  end.

(** [int(device_id.split(":")[0])] *)
Definition vantage_id_of (device_id : string) : result Z :=
  int_of_str (split_head ":" device_id).

(** The clean-up loop over the records of the config entry. *)
Fixpoint cleanup (devices : list DeviceEntry) (reg : registry)
  : result registry :=
  match devices with
  | [] => Ok reg
  | device :: rest =>
      device_id <- domain_device_id device ;;
      vantage_id <- vantage_id_of device_id ;;
      cleanup rest
        (if negb (contains client vantage_id)
         then async_remove_device reg (dev_id device)
         else reg)
  end.

(** [async_setup_devices] *)
Definition async_setup_devices
    (version_of : SystemObject -> result string) (reg : registry)
  : result registry :=
  reg <- register_items (Some (extra_master_info version_of))
           (masters client) reg ;;
  reg <- register_items None (modules client) reg ;;
  reg <- register_items None (port_devices client) reg ;;
  reg <- register_items None (stations client) reg ;;
  cleanup (async_entries_for_config_entry reg entry_id) reg.

End WithEntry.
End WithDomain.

End Device.

(* ================================================================== *)
(** * __init__.py *)
(* ================================================================== *)

Module Integration.
Import Vantage.

(** ** Config-entry setup *)

Definition LoginRequiredError : string := "LoginRequiredError".
Definition LoginFailedError : string := "LoginFailedError".
Definition ClientConnectionError : string := "ClientConnectionError".

(** [raise ConfigEntryAuthFailed from err], [raise ConfigEntryNotReady
    from err]: the host platform's two signals. *)
Definition ConfigEntryAuthFailed (err : exn) : exn :=
  Exn "ConfigEntryAuthFailed"
    ["IntegrationError"; "HomeAssistantError"; "Exception"] (Some err).
Definition ConfigEntryNotReady (err : exn) : exn :=
  Exn "ConfigEntryNotReady"
    ["IntegrationError"; "HomeAssistantError"; "Exception"] (Some err).

(** The outcomes of the statements of [async_setup_entry] that call into
    the client library, the host platform or other modules.
    [create_client] stands for the two statements before the [try]. *)
Record setup_steps : Type := {
  create_client : result unit;
  initialize : result unit;
  setup_devices : result unit;
  setup_events : result unit;
  forward_entry_setups : result unit;
  cleanup_entities : result unit;
}.

(** The body of the [try]. *)
Definition try_body (s : setup_steps) : result unit :=
  _ <- initialize s ;;
  _ <- setup_devices s ;;
  _ <- setup_events s ;;
  _ <- forward_entry_setups s ;;
  cleanup_entities s.

(** The [except] clauses, tried in order. *)
Definition handle (err : exn) : exn :=
  if isinstance_exn err LoginRequiredError
     || isinstance_exn err LoginFailedError
  then ConfigEntryAuthFailed err
  else if isinstance_exn err ClientConnectionError
  then ConfigEntryNotReady err
  else err.

(** [async_setup_entry] *)
Definition async_setup_entry (s : setup_steps) : result bool :=
  _ <- create_client s ;;
  match try_body s with
  | Ok _ => Ok true
  | Raise err => Raise (handle err)
  end.

(** ** Button events *)

(** An event fired on the host's bus: its type and its payload, a
    dictionary kept in insertion order. *)
Definition payload : Type := list (string * value).
Definition bus : Type := list (string * payload).

(** [hass.bus.async_fire(event_type, payload)] *)
Definition async_fire (b : bus) (event_type : string) (p : payload) : bus :=
  (b ++ [(event_type, p)])%list.

(** [payload[key]] *)
Definition payload_get (p : payload) (key : string) : option value :=
  option_map snd (find (fun kv => String.eqb (fst kv) key) p).

(** Truth value of [obj.pressed], a [bool] or [None]. *)
Definition pressed_truthy (o : option bool) : bool :=
  match o with
  | Some b => b
  | None => false
  end.

Section WithDomain.

Variable DOMAIN : string.

Definition EVENT_BUTTON_PRESSED : string :=
  (DOMAIN ++ "_button_pressed")%string.
Definition EVENT_BUTTON_RELEASED : string :=
  (DOMAIN ++ "_button_released")%string.

(** [button_update_callback(_event, obj, data)], with
    [attrs_changed = data["attrs_changed"]]. *)
Definition button_update_callback (stations : controller) (b : bus)
    (obj : Button) (attrs_changed : list string) : bus :=
  if negb (existsb (String.eqb "pressed") attrs_changed) then b
  else
    let p : payload :=
      [("button_id", VInt (button_id obj));
       ("button_name", VStr (button_name obj));
       ("button_position", VStr "TODO")] in
    let p :=
      match get stations (button_parent_id obj) with
      | Some station =>
          (p ++ [("station_id", VInt (obj_id station));
                 ("station_name", VStr (obj_name station))])%list
      | None => p
      end in
    if pressed_truthy (pressed obj)
    then async_fire b EVENT_BUTTON_PRESSED p
    else async_fire b EVENT_BUTTON_RELEASED p.

(** The subscription made by [async_setup_events]: the controller calls
    the callback for the notifications that pass
    [event_filter=VantageEvent.OBJECT_UPDATED]. *)
Definition deliver (stations : controller) (b : bus)
    (event : VantageEvent) (obj : Button) (attrs_changed : list string)
  : bus :=
  if VantageEvent_eqb event OBJECT_UPDATED
  then button_update_callback stations b obj attrs_changed
  else b.

End WithDomain.

End Integration.

(* ================================================================== *)
(** * Specification-side definitions *)
(* ================================================================== *)

Module Spec.

(** A string none of whose characters is [sep]. *)
Fixpoint no_char (sep : ascii) (s : string) : Prop :=
  match s with
  | EmptyString => True
  | String c s' => Ascii.eqb c sep = false /\ no_char sep s'
  end.

(** A string that consists of decimal digits. *)
Fixpoint all_digits (s : string) : Prop :=
  match s with
  | EmptyString => True
  | String c s' => is_digit c = true /\ all_digits s'
  end.

(** The integer nearest to the exact quotient [n / d] (for [0 < d]), a tie
    going to the even neighbour: rounding stated on integers, without
    floats. *)
Definition nearest_even_div (n d : Z) : Z :=
  let q := n / d in
  let r := n mod d in
  if 2 * r <? d then q
  else if d <? 2 * r then q + 1
  else if Z.even q then q else q + 1.

(** The values of one colour channel and of the platform brightness. *)
Definition byte_values : list Z := map Z.of_nat (seq 0 256).

Definition is_byte (z : Z) : Prop := 0 <= z <= 255.

(** Does the float computation of one scaled component agree with the
    integer rounding, and stay a channel value? *)
Definition scale_check (b c : Z) : bool :=
  match Light.scale_component b c with
  | Ok r => (r =? nearest_even_div (c * b) 255) && (0 <=? r) && (r <=? 255)
  | Raise _ => false
  end.

(** The floats that the decimal literals [12.345] and [1.001] denote:
    the binary64 values nearest to 12345/1000 and to 1001/1000. *)
Definition lit_12_345 : float := 0x1.8b0a3d70a3d71p+3%float.
Definition lit_1_001 : float := 0x1.004189374bc6ap+0%float.

(** The colour-space tags [VantageRGBLight.__post_init__] has a case
    for. *)
Definition recognized_color_type (c : Light.ColorType.t) : Prop :=
  c = Light.ColorType.HSL \/ c = Light.ColorType.RGB
  \/ c = Light.ColorType.RGBW \/ c = Light.ColorType.CCT.

End Spec.

(** ** The device registry: invariants and the shape of reconciliation *)

Module DeviceSpec.
Import Vantage DeviceRegistry Device.

(** Is the record claimed by the config entry?  (The test of
    [async_entries_for_config_entry].) *)
Definition claimed (entry : string) (d : DeviceEntry) : bool :=
  existsb (String.eqb entry) (dev_config_entries d).

(** How many records answer to the identifier. *)
Definition count (i : identifier) (reg : registry) : nat :=
  List.length (filter (has_identifier i) reg).

(** The object id encoded in a record's identifier, as the clean-up loop
    computes it. *)
Definition vid_of (DOMAIN : string) (d : DeviceEntry) : result Z :=
  device_id <- domain_device_id DOMAIN d ;; vantage_id_of device_id.

(** The invariants of the registry that the host platform and this
    integration maintain: record keys are unique, no identifier is shared
    by two records, and a record has at most one identifier of this
    integration's domain. *)
Record registry_wf (DOMAIN : string) (reg : registry) : Prop := {
  wf_ids : NoDup (map dev_id reg);
  wf_unique : forall i, (count i reg <= 1)%nat;
  wf_single : forall d i j,
      In d reg -> In i (dev_identifiers d) -> In j (dev_identifiers d) ->
      fst i = DOMAIN -> fst j = DOMAIN -> i = j;
}.

(** Every record claimed by the entry carries an identifier of the domain
    whose part before the first colon [int] reads as an object id. *)
Definition entry_parses (DOMAIN entry : string) (reg : registry) : Prop :=
  forall d, In d reg -> claimed entry d = true ->
            exists z, vid_of DOMAIN d = Ok z.

(** The objects that [async_setup_devices] enumerates. *)
Definition enumerated (c : Client) : list SystemObject :=
  (masters c ++ modules c ++ port_devices c ++ stations c)%list.

(** The record is stale: its encoded object id is not in the client. *)
Definition stale (DOMAIN : string) (c : Client) (d : DeviceEntry) : bool :=
  match vid_of DOMAIN d with
  | Ok z => negb (contains c z)
  | Raise _ => false
  end.

(** What [async_get_or_create] amounts to on a well-formed registry when
    the info names the single identifier [i]: the record answering to [i]
    is updated, and one is appended when there is none. *)
Definition touch (entry : string) (info : DeviceInfo) (i : identifier)
    (x : DeviceEntry) : DeviceEntry :=
  if has_identifier i x then apply_info entry info x else x.

Definition created (entry : string) (info : DeviceInfo) (i : identifier)
    (reg : registry) : list DeviceEntry :=
  if existsb (has_identifier i) reg then []
  else [apply_info entry info (new_entry (fresh_id reg))].

(** The registration phase of [async_setup_devices] as a sequence of
    [async_get_or_create] calls, each for the object id it is keyed by. *)
Definition step (entry : string) (reg : registry) (s : Z * DeviceInfo)
  : registry :=
  async_get_or_create reg entry (snd s).

Definition register_all (entry : string) (steps : list (Z * DeviceInfo))
    (reg : registry) : registry :=
  fold_left (step entry) steps reg.

Definition keyed (DOMAIN : string) (s : Z * DeviceInfo) : Prop :=
  identifiers (snd s) = Some [device_identifier DOMAIN (fst s)].

(** The firmware version as extra info, and the calls that the four
    [register_items] of [async_setup_devices] make when every master
    answers the version query. *)
Definition version_info (v : string) : DeviceInfo :=
  {| identifiers := None; name := None; manufacturer := None;
     model := None; suggested_area := None; serial_number := None;
     sw_version := Some v; via_device := None |}.

Definition master_step (DOMAIN : string) (c : Client)
    (version_of : SystemObject -> result string) (o : SystemObject)
  : Z * DeviceInfo :=
  (obj_id o,
   match version_of o with
   | Ok v => update (vantage_device_info DOMAIN c o) (version_info v)
   | Raise _ => vantage_device_info DOMAIN c o
   end).

Definition plain_step (DOMAIN : string) (c : Client) (o : SystemObject)
  : Z * DeviceInfo :=
  (obj_id o, vantage_device_info DOMAIN c o).

Definition setup_steps (DOMAIN : string) (c : Client)
    (version_of : SystemObject -> result string) : list (Z * DeviceInfo) :=
  (map (master_step DOMAIN c version_of) (masters c)
   ++ map (plain_step DOMAIN c)
        (modules c ++ port_devices c ++ stations c))%list.

(** Every master answers the version query. *)
Definition versions_known (c : Client)
    (version_of : SystemObject -> result string) : Prop :=
  forall m, In m (masters c) -> exists v, version_of m = Ok v.

(** The records the clean-up loop keeps. *)
Definition kept (DOMAIN : string) (c : Client) (entry : string)
    (x : DeviceEntry) : bool :=
  negb (claimed entry x && stale DOMAIN c x).

(** A record answering to [j] exists and is claimed by the entry. *)
Definition present (entry : string) (j : identifier) (reg : registry)
  : Prop :=
  exists d, In d reg /\ has_identifier j d = true /\ claimed entry d = true.

(** Applying a sequence of calls to one record: each call that names one
    of its identifiers updates it. *)
Definition touch_all (DOMAIN entry : string) (steps : list (Z * DeviceInfo))
    (x : DeviceEntry) : DeviceEntry :=
  fold_left
    (fun y s => touch entry (snd s) (device_identifier DOMAIN (fst s)) y)
    steps x.

(** A small installation used to instantiate the statements: one master,
    one module and one keypad station attached to the module. *)
Definition sample_master : SystemObject :=
  {| obj_id := 1; obj_name := "Controller"; display_name := "Controller";
     vantage_type := "Master"; is_master := true; is_station := false;
     obj_area := None; obj_serial := Some (SerialInt 4711);
     obj_parent := None; obj_master := 1; application_version := "3.9" |}.

Definition sample_module : SystemObject :=
  {| obj_id := 7; obj_name := "Enclosure 1"; display_name := "Enclosure 1";
     vantage_type := "Module"; is_master := false; is_station := false;
     obj_area := None; obj_serial := None;
     obj_parent := None; obj_master := 1; application_version := "" |}.

Definition sample_keypad : SystemObject :=
  {| obj_id := 41; obj_name := "Hall Keypad"; display_name := "Hall Keypad";
     vantage_type := "Keypad"; is_master := false; is_station := true;
     obj_area := None; obj_serial := None;
     obj_parent := Some 7; obj_master := 1; application_version := "" |}.

Definition sample_client : Client :=
  {| masters := [sample_master]; modules := [sample_module];
     port_devices := []; stations := [sample_keypad]; back_boxes := [];
     areas := []; others := [] |}.

(** The same installation after the keypad was taken out. *)
Definition sample_client_without_keypad : Client :=
  {| masters := [sample_master]; modules := [sample_module];
     port_devices := []; stations := []; back_boxes := []; areas := [];
     others := [] |}.

Definition sample_version (o : SystemObject) : result string :=
  Ok (application_version o).

(** The keypad's record as setup leaves it. *)
Definition sample_keypad_record : DeviceEntry :=
  {| dev_id := 3; dev_config_entries := ["entry-1"];
     dev_identifiers := [device_identifier "vantage" 41] |}.

End DeviceSpec.

(* ================================================================== *)
(** * light.py: the remaining entities *)
(* ================================================================== *)

Module LightEntities.
Import Hass Light.

(** ** [VantageLight.__post_init__] *)

(** A power profile of the client: what the load entity reads of it. *)
Record PowerProfile : Type := {
  profile_id : Z;
  is_dimmable : bool;
}.

(** [client.power_profiles.get(vid)] *)
Definition power_profiles_get (profiles : list PowerProfile) (vid : Z)
  : option PowerProfile :=
  find (fun p => profile_id p =? vid) profiles.

(** [VantageLight.__post_init__]: a load whose power profile is known and
    dimmable is a brightness light with transitions, any other load an
    on/off light.  [power_profile] is [self.obj.power_profile]. *)
Definition load_post_init (profiles : list PowerProfile) (power_profile : Z)
    (a : LightAttrs) : LightAttrs :=
  match power_profiles_get profiles power_profile with
  | Some p =>
      if is_dimmable p then with_mode ColorMode.BRIGHTNESS true a
      else with_mode ColorMode.ONOFF false a
  | None => with_mode ColorMode.ONOFF false a
  end.

(** [VantageLightGroup.__post_init__] *)
Definition group_post_init (a : LightAttrs) : LightAttrs :=
  {| supported_color_modes := [ColorMode.BRIGHTNESS];
     color_mode := Some ColorMode.BRIGHTNESS;
     supported_features := Z.lor (supported_features a) TRANSITION;
     min_color_temp_kelvin := min_color_temp_kelvin a;
     max_color_temp_kelvin := max_color_temp_kelvin a |}.

(** ** [VantageRGBLight.async_turn_on] *)

(** The keyword arguments the RGB light reads. *)
Record rgb_kwargs : Type := {
  rgbw_color : option (list Z);
  rgb_color : option (list Z);
  hs_color : option (num * num);
  color_temp_kelvin : option Z;
  brightness_kw : option Z;
  transition_kw : option num;
}.

(** The calls on the RGB load that the entity awaits.  A colour tuple is
    passed unpacked ([*rgb]); it is kept as the list of its components. *)
Inductive rgb_command : Type :=
  | SetRgbw (components : list Z)
  | DissolveRgb (components : list Z) (transition : num)
  | DissolveHsl (hue saturation level transition : num)
  | SetColorTemp (kelvin : Z)
  | RgbTurnOn (transition level : num).

(** What a method did: the calls it awaited, in order, and whether it
    then returned or raised. *)
Definition effect : Type := (list rgb_command * result unit)%type.

(** [brightness := kwargs.get(ATTR_BRIGHTNESS) is not None]: the
    assignment expression binds the result of the comparison, a [bool]. *)
Definition brightness_given (kwargs : rgb_kwargs) : bool :=
  match brightness_kw kwargs with
  | Some _ => true
  | None => false
  end.

(** The colour handed to the load: when a brightness was given,
    [scale_color_brightness(color, brightness)] with [brightness] the
    [bool] [True], which counts as the integer 1 in the arithmetic. *)
Definition scaled_color (kwargs : rgb_kwargs) (color : list Z)
  : result (list Z) :=
  if brightness_given kwargs then scale_color_brightness color (Some 1)
  else Ok color.

(** [VantageRGBLight.async_turn_on] *)
Definition rgb_async_turn_on (kwargs : rgb_kwargs) : effect :=
  match rgbw_color kwargs with
  | Some rgbw =>
      match scaled_color kwargs rgbw with
      | Ok rgbw => ([SetRgbw rgbw], Ok tt)
      | Raise e => ([], Raise e)
      end
  | None =>
  match rgb_color kwargs with
  | Some rgb =>
      let transition := get_default (transition_kw kwargs) (Int 0) in
      match scaled_color kwargs rgb with
      | Ok rgb => ([DissolveRgb rgb transition], Ok tt)
      | Raise e => ([], Raise e)
      end
  | None =>
  match hs_color kwargs with
  | Some (hue, saturation) =>
      match brightness_to_value LEVEL_RANGE
              (get_default (brightness_kw kwargs) 255) with
      | Ok level =>
          let transition := get_default (transition_kw kwargs) (Int 0) in
          ([DissolveHsl hue saturation level transition], Ok tt)
      | Raise e => ([], Raise e)
      end
  | None =>
      let issued :=
        match color_temp_kelvin kwargs with
        | Some color_temp => [SetColorTemp color_temp]
        | None => []
        end in
      let transition := get_default (transition_kw kwargs) (Int 0) in
      match brightness_to_value LEVEL_RANGE
              (get_default (brightness_kw kwargs) 255) with
      | Ok level => ((issued ++ [RgbTurnOn transition level])%list, Ok tt)
      | Raise e => (issued, Raise e)
      end
  end end end.

End LightEntities.

(* ================================================================== *)
(** * __init__.py: the client store and unloading *)
(* ================================================================== *)

Module Store.

Definition KeyError : exn :=
  Exn "KeyError" ["LookupError"; "Exception"] None.

Section WithClient.

(** The client object, and its truth value ([if vantage:]). *)
Variable client : Type.
Variable client_truthy : client -> bool.

(** [hass.data[DOMAIN]]: [None] while the key is missing, otherwise the
    dictionary from entry ids to clients, in insertion order. *)
Definition hass_data : Type := option (list (string * client)).

(** [d[key] = value] *)
Fixpoint dict_set (d : list (string * client)) (key : string) (c : client)
  : list (string * client) :=
  match d with
  | [] => [(key, c)]
  | (k, v) :: rest =>
      if String.eqb k key then (k, c) :: rest
      else (k, v) :: dict_set rest key c
  end.

(** [d.get(key)] *)
Definition dict_get (d : list (string * client)) (key : string)
  : option client :=
  option_map snd (find (fun kv => String.eqb (fst kv) key) d).

(** [d.pop(key, None)]: the dictionary without the key. *)
Definition dict_remove (d : list (string * client)) (key : string)
  : list (string * client) :=
  filter (fun kv => negb (String.eqb (fst kv) key)) d.

(** [hass.data.setdefault(DOMAIN, {})[entry.entry_id] = vantage] *)
Definition store_client (data : hass_data) (entry_id : string) (c : client)
  : hass_data :=
  Some (dict_set (match data with Some d => d | None => [] end) entry_id c).

(** [async_setup_entry] with the store: the store afterwards and the
    outcome.  The client is created and stored before the [try]. *)
Definition async_setup_entry (data : hass_data) (entry_id : string)
    (c : client) (s : Integration.setup_steps) : hass_data * result bool :=
  match Integration.create_client s with
  | Raise e => (data, Raise e)
  | Ok _ =>
      (store_client data entry_id c,
       match Integration.try_body s with
       | Ok _ => Ok true
       | Raise err => Raise (Integration.handle err)
       end)
  end.

(** [async_unload_entry]: the store afterwards, the clients that were
    closed, and the outcome ([unload_platforms] is what the host's
    [async_unload_platforms] answers). *)
Definition async_unload_entry (data : hass_data) (entry_id : string)
    (unload_platforms : result bool)
  : hass_data * list client * result bool :=
  match data with
  | None => (data, [], Raise KeyError)
  | Some d =>
      let closed :=
        match dict_get d entry_id with
        | Some vantage => if client_truthy vantage then [vantage] else []
        | None => []
        end in
      (Some (dict_remove d entry_id), closed, unload_platforms)
  end.

End WithClient.

End Store.

(* ================================================================== *)
(** * device.py: the registry that a failing setup leaves behind *)
(* ================================================================== *)

Module DeviceState.
Import Vantage DeviceRegistry.

(** The registry is an object of the host that [async_setup_devices]
    updates in place, so what was written before an exception stays
    written.  An [outcome] is the registry as a statement leaves it,
    together with whether the statement returned or raised. *)
Definition outcome : Type := (registry * result unit)%type.

(** Two statements in sequence. *)
Definition and_then (o : outcome) (k : registry -> outcome) : outcome :=
  match o with
  | (reg, Ok _) => k reg
  | (reg, Raise err) => (reg, Raise err)
  end.

Section WithEntry.

Variable DOMAIN : string.
Variable client : Client.
Variable entry_id : string.

(** [register_items].  When [add_device] raises, it does so in
    [extra_info_fn], before it calls the registry. *)
Fixpoint register_items (extra : option Device.extra_info_fn)
    (ctl : controller) (reg : registry) : outcome :=
  match ctl with
  | [] => (reg, Ok tt)
  | obj :: rest =>
      match Device.add_device DOMAIN client entry_id extra reg obj with
      | Ok reg' => register_items extra rest reg'
      | Raise err => (reg, Raise err)
      end
  end.

(** The clean-up loop.  When reading a record's object id raises, the
    removals made for the records before it stay. *)
Fixpoint cleanup (devices : list DeviceEntry) (reg : registry) : outcome :=
  match devices with
  | [] => (reg, Ok tt)
  | device :: rest =>
      match (device_id <- Device.domain_device_id DOMAIN device ;;
             Device.vantage_id_of device_id) with
      | Ok vantage_id =>
          cleanup rest
            (if negb (contains client vantage_id)
             then async_remove_device reg (dev_id device)
             else reg)
      | Raise err => (reg, Raise err)
      end
  end.

(** [async_setup_devices] *)
Definition async_setup_devices
    (version_of : SystemObject -> result string) (reg : registry)
  : outcome :=
  and_then (register_items (Some (Device.extra_master_info version_of))
              (masters client) reg) (fun reg =>
  and_then (register_items None (modules client) reg) (fun reg =>
  and_then (register_items None (port_devices client) reg) (fun reg =>
  and_then (register_items None (stations client) reg) (fun reg =>
  cleanup (async_entries_for_config_entry reg entry_id) reg)))).

End WithEntry.

(** What the caller sees of an outcome. *)
Definition returned (o : outcome) : result registry :=
  match o with
  | (reg, Ok _) => Ok reg
  | (_, Raise err) => Raise err
  end.

End DeviceState.

(* ================================================================== *)
(** * Specification-side definitions for the further properties *)
(* ================================================================== *)

Module MoreSpec.
Import Hass Light LightEntities Spec.

(** The platform brightness values of a light that is on. *)
Definition brightness_values : list Z := map Z.of_nat (seq 1 255).

(** The integer levels of a load that is on. *)
Definition level_values : list Z := map Z.of_nat (seq 1 100).

(** For one brightness: the level handed to the load is a float in
    (0, 100] and converts back to the same brightness. *)
Definition brightness_check (b : Z) : bool :=
  match brightness_to_value LEVEL_RANGE b with
  | Ok (Float f) =>
      match value_to_brightness LEVEL_RANGE (Float f) with
      | Ok b' =>
          (b' =? b) && PrimFloat.ltb 0%float f && PrimFloat.leb f 100%float
      | Raise _ => false
      end
  | _ => false
  end.

(** For one integer level: the brightness it is shown at, turned back
    into a level, is within a quarter of the level. *)
Definition level_check (l : Z) : bool :=
  match float_of_int l with
  | Ok fl =>
      match value_to_brightness LEVEL_RANGE (Float fl) with
      | Ok b =>
          match brightness_to_value LEVEL_RANGE b with
          | Ok (Float f) =>
              PrimFloat.leb (PrimFloat.abs (f - fl)%float) 0.25%float
          | _ => false
          end
      | Raise _ => false
      end
  | Raise _ => false
  end.

(** [kwargs] with another brightness. *)
Definition with_brightness (b : option Z) (k : rgb_kwargs) : rgb_kwargs :=
  {| rgbw_color := rgbw_color k; rgb_color := rgb_color k;
     hs_color := hs_color k; color_temp_kelvin := color_temp_kelvin k;
     brightness_kw := b; transition_kw := transition_kw k |}.

(** What scaling by the integer 1 leaves of a channel value. *)
Definition one_bit (c : Z) : Z := if c <=? 127 then 0 else 1.

Definition one_bit_check (c : Z) : bool :=
  nearest_even_div (c * 1) 255 =? one_bit c.

(** The exact value [m * 2^e] of a number, as the pair [(m, e)]; [None]
    for an infinity or a NaN. *)
Definition num_parts (n : num) : option (Z * Z) :=
  match n with
  | Int z => Some (z, 0)
  | Float f =>
      match Prim2SF f with
      | S754_zero _ => Some (0, 0)
      | S754_finite s m e => Some (cond_Zopp s (Zpos m), e)
      | _ => None
      end
  end.

(** [a < b] decided on the exact values. *)
Definition num_ltb (a b : num) : bool :=
  match num_parts a, num_parts b with
  | Some (m1, e1), Some (m2, e2) =>
      let e := Z.min e1 e2 in
      m1 * 2 ^ (e1 - e) <? m2 * 2 ^ (e2 - e)
  | _, _ => false
  end.

(** A number entity with nothing assigned yet. *)
Definition no_number_attrs : Number.NumberAttrs :=
  {| Number.native_min_value := None; Number.native_max_value := None;
     Number.native_step := None; Number.native_unit_of_measurement := None;
     Number.number_device_class := None |}.

(** Both bounds are assigned and the lower one is below the upper one. *)
Definition bounds_ordered (a : Number.NumberAttrs) : bool :=
  match Number.native_min_value a, Number.native_max_value a with
  | Some lo, Some hi => num_ltb lo hi
  | _, _ => false
  end.

(** Two more records for the sample installation: one that belongs to
    another config entry, and one of this entry whose identifier does not
    start with an integer numeral. *)
Definition other_entry_record : DeviceRegistry.DeviceEntry :=
  {| DeviceRegistry.dev_id := 8;
     DeviceRegistry.dev_config_entries := ["entry-2"];
     DeviceRegistry.dev_identifiers := [("vantage", "900")] |}.

Definition unparseable_record : DeviceRegistry.DeviceEntry :=
  {| DeviceRegistry.dev_id := 9;
     DeviceRegistry.dev_config_entries := ["entry-1"];
     DeviceRegistry.dev_identifiers := [("vantage", "keypad:41")] |}.

End MoreSpec.

(* ================================================================== *)
(** * Properties *)
(* ================================================================== *)

(** ** Strings and numerals *)

Module PyFacts.
Import Spec.

Lemma to_int_not_nil (z : Z) :
  Z.to_int z <> Decimal.Pos Decimal.Nil /\
  Z.to_int z <> Decimal.Neg Decimal.Nil.
Proof.
  destruct z as [|p|p]; cbn; split; try discriminate;
    intros [= H]; now apply (DecimalPos.Unsigned.to_uint_nonnil p).
Qed.

Lemma uint_digits (d : Decimal.uint) : all_digits (NilEmpty.string_of_uint d).
Proof. induction d; cbn; auto. Qed.

Lemma digit_not_space (c : ascii) : is_digit c = true -> is_space c = false.
Proof.
  destruct c as [[|] [|] [|] [|] [|] [|] [|] [|]]; vm_compute; congruence.
Qed.

Lemma digit_not_sign (c : ascii) :
  is_digit c = true -> Ascii.eqb c "-" = false /\ Ascii.eqb c "+" = false.
Proof.
  intros H. split; apply Ascii.eqb_neq; intros ->; discriminate.
Qed.

Lemma lstrip_digits (s : string) : all_digits s -> lstrip s = s.
Proof.
  destruct s as [|c s]; cbn; [reflexivity|].
  intros [Hc _]. now rewrite (digit_not_space c Hc).
Qed.

Lemma rstrip_digits (s : string) : all_digits s -> rstrip s = s.
Proof.
  induction s as [|c s IH]; cbn; [reflexivity|].
  intros [Hc Hs]. rewrite (IH Hs), (digit_not_space c Hc).
  now destruct s.
Qed.

Lemma numeral_digits_id (s : string) :
  all_digits s -> numeral_digits true s = Some s.
Proof.
  induction s as [|c s IH]; cbn; [reflexivity|].
  intros [Hc Hs]. now rewrite Hc, (IH Hs).
Qed.

(** On a numeral made of an optional [-] and at least one digit, [int]
    reads the sign and the digits as they are. *)
Lemma int_of_numeral (negative : bool) (d : Decimal.uint) :
  d <> Decimal.Nil ->
  int_of_str ((if negative then "-" else "") ++ NilEmpty.string_of_uint d)
  = Ok (Z.of_int (if negative then Decimal.Neg d else Decimal.Pos d)).
Proof.
  intros N. pose proof (uint_digits d) as A.
  assert (E : exists c s, NilEmpty.string_of_uint d = String c s).
  { destruct d; cbn; eauto. contradiction. }
  destruct E as (c & s & E). rewrite E in A. destruct A as [Hc Hs].
  assert (A : all_digits (String c s)) by (split; assumption).
  destruct (digit_not_sign c Hc) as [Hm Hp].
  unfold int_of_str, strip.
  assert (S : signed (lstrip (rstrip ((if negative then "-" else "")
                                        ++ NilEmpty.string_of_uint d)))
              = (negative, String c s)).
  { rewrite E. destruct negative; cbn [append].
    - change (rstrip (String "-" (String c s)))
        with (match rstrip (String c s) with
              | EmptyString => if is_space "-" then EmptyString else "-"
              | t => String "-" t
              end).
      rewrite (rstrip_digits _ A). reflexivity.
    - rewrite (rstrip_digits _ A), (lstrip_digits _ A).
      cbn. now rewrite Hm, Hp. }
  rewrite S. cbn [numeral_digits]. rewrite Hc, (numeral_digits_id s Hs).
  cbn [option_map]. rewrite <- E, NilEmpty.usu. reflexivity.
Qed.

(** [int(str(n)) == n] *)
Lemma int_of_str_str (z : Z) : int_of_str (str z) = Ok z.
Proof.
  unfold str. rewrite <- (DecimalZ.of_to z) at 2.
  destruct (to_int_not_nil z) as [Hp Hn].
  destruct (Z.to_int z) as [d|d].
  - assert (N : d <> Decimal.Nil) by congruence.
    rewrite <- (int_of_numeral false d N). cbn.
    unfold NilZero.string_of_uint. destruct d; try reflexivity. contradiction.
  - assert (N : d <> Decimal.Nil) by congruence.
    rewrite <- (int_of_numeral true d N). cbn.
    unfold NilZero.string_of_uint. destruct d; try reflexivity. contradiction.
Qed.

(** What [int] accepts besides the numerals that [str] writes, and what
    it does not. *)
Example int_of_str_examples :
  int_of_str "+900" = Ok 900 /\ int_of_str " 41 " = Ok 41
  /\ int_of_str "4_1" = Ok 41 /\ int_of_str "-007" = Ok (-7)
  /\ int_of_str "4__1" = Raise ValueError
  /\ int_of_str "+ 41" = Raise ValueError
  /\ int_of_str "" = Raise ValueError.
Proof. repeat split; reflexivity. Qed.

(** [int] on a string fails in one way only. *)
Lemma int_of_str_raises (s : string) (e : exn) :
  int_of_str s = Raise e -> e = ValueError.
Proof.
  unfold int_of_str. destruct (signed (strip s)) as [negative body].
  destruct (numeral_digits false body) as [ds|]; [|now intros [= <-]].
  destruct (NilEmpty.uint_of_string ds); [discriminate|now intros [= <-]].
Qed.

Lemma str_inj (a b : Z) : str a = str b -> a = b.
Proof.
  intros H.
  assert (E : int_of_str (str a) = int_of_str (str b)) by now rewrite H.
  rewrite !int_of_str_str in E. now injection E.
Qed.

(** A string without the separator has no second part. *)
Lemma split_head_no_char sep s : no_char sep s -> split_head sep s = s.
Proof.
  induction s as [|c s IH]; cbn; [easy|].
  intros [Hc Hs]. rewrite Hc. now rewrite IH.
Qed.

Lemma uint_no_colon (d : Decimal.uint) :
  no_char ":" (NilEmpty.string_of_uint d).
Proof. induction d; cbn; auto. Qed.

Lemma str_no_colon (z : Z) : no_char ":" (str z).
Proof.
  unfold str, NilZero.string_of_int, NilZero.string_of_uint.
  destruct (Z.to_int z) as [d|d]; destruct d; cbn; auto using uint_no_colon.
Qed.

(** [str(n).split(":")[0] == str(n)] *)
Lemma split_head_str (z : Z) : split_head ":" (str z) = str z.
Proof. apply split_head_no_char, str_no_colon. Qed.

Lemma int_value_isinstance (v : value) :
  isinstance_int v = true <-> exists z, int_value v = Some z.
Proof.
  destruct v; cbn; split; intros H; try discriminate; eauto;
    destruct H as [? H]; discriminate.
Qed.

Lemma traverse_length {A B} (f : A -> result B) (l : list A) (out : list B) :
  traverse f l = Ok out -> List.length out = List.length l.
Proof.
  revert out. induction l as [|a l IH]; cbn; intros out H.
  - now injection H as <-.
  - destruct (f a); cbn in H; [|discriminate].
    destruct (traverse f l) as [bs|]; cbn in H; [|discriminate].
    injection H as <-. cbn. now rewrite (IH bs).
Qed.

Lemma traverse_map {A B} (f : A -> result B) (g : A -> B) (l : list A) :
  Forall (fun a => f a = Ok (g a)) l -> traverse f l = Ok (map g l).
Proof.
  induction 1 as [|a l Ha _ IH]; cbn; [easy|].
  now rewrite Ha, IH.
Qed.

End PyFacts.

(** ** light.py *)

Module LightProps.
Import Hass Light Spec PyFacts.

Lemma scale_table :
  forallb (fun b => forallb (scale_check b) byte_values) byte_values = true.
Proof. vm_cast_no_check (eq_refl true). Qed.

Lemma in_byte_values (z : Z) : is_byte z -> In z byte_values.
Proof.
  intros [H0 H1]. unfold byte_values.
  rewrite <- (Z2Nat.id z H0). apply in_map, in_seq. lia.
Qed.

Lemma scale_check_true (b c : Z) :
  is_byte b -> is_byte c -> scale_check b c = true.
Proof.
  intros Hb Hc.
  pose proof scale_table as T.
  rewrite forallb_forall in T.
  specialize (T b (in_byte_values b Hb)).
  rewrite forallb_forall in T.
  exact (T c (in_byte_values c Hc)).
Qed.

Lemma scale_component_exact (b c : Z) :
  is_byte b -> is_byte c ->
  scale_component b c = Ok (nearest_even_div (c * b) 255)
  /\ is_byte (nearest_even_div (c * b) 255).
Proof.
  intros Hb Hc. pose proof (scale_check_true b c Hb Hc) as H.
  unfold scale_check in H.
  destruct (scale_component b c) as [r|]; [|discriminate].
  apply andb_prop in H as [H H2]. apply andb_prop in H as [H0 H1].
  apply Z.eqb_eq in H0. subst r. unfold is_byte. split; [reflexivity|lia].
Qed.

Lemma nearest_even_div_full (c : Z) : nearest_even_div (c * 255) 255 = c.
Proof.
  unfold nearest_even_div.
  rewrite Z.mod_mul, Z.div_mul by lia. reflexivity.
Qed.

Lemma scale_components_exact (b : Z) (color : list Z) :
  is_byte b -> Forall is_byte color ->
  traverse (scale_component b) color
  = Ok (map (fun c => nearest_even_div (c * b) 255) color)
  /\ Forall is_byte (map (fun c => nearest_even_div (c * b) 255) color).
Proof.
  intros Hb Hc. split.
  - apply traverse_map.
    eapply Forall_impl; [|exact Hc].
    intros c Hcb. now apply scale_component_exact.
  - apply Forall_map.
    eapply Forall_impl; [|exact Hc].
    intros c Hcb. now apply scale_component_exact.
Qed.

(** C10: [scale_color_brightness] returns the colour unchanged when the
    brightness is [None]; otherwise it evaluates
    [int(round(c * brightness / 255))] on every component and, when it
    returns, the tuple has the arity of the argument.  For components and
    brightness in 0..255 it does return, each component is the integer
    nearest to the exact [c * brightness / 255] (ties to even) and lies in
    0..255; at brightness 255 the colour comes back unchanged. *)
Theorem scale_color_brightness_correct (color : list Z) :
  scale_color_brightness color None = Ok color
  /\ (forall b,
        scale_color_brightness color (Some b)
        = traverse (fun c => x <- int_truediv (c * b) 255 ;;
                             n <- round x ;; Ok n) color)
  /\ (forall b out,
        scale_color_brightness color (Some b) = Ok out ->
        List.length out = List.length color)
  /\ (forall b,
        is_byte b -> Forall is_byte color ->
        exists out,
          scale_color_brightness color (Some b) = Ok out
          /\ out = map (fun c => nearest_even_div (c * b) 255) color
          /\ Forall is_byte out)
  /\ (Forall is_byte color ->
      scale_color_brightness color (Some 255) = Ok color).
Proof.
  repeat split.
  - intros b out H. cbn in H. now apply traverse_length in H.
  - intros b Hb Hc.
    destruct (scale_components_exact b color Hb Hc) as [E F].
    eexists. cbn. split; [exact E|]. split; [reflexivity|exact F].
  - intros Hc. cbn.
    assert (Hb : is_byte 255) by (unfold is_byte; lia).
    destruct (scale_components_exact 255 color Hb Hc) as [E _].
    rewrite E. f_equal.
    rewrite <- (map_id color) at 2.
    apply map_ext. intros c. apply nearest_even_div_full.
Qed.

(** The half-bright orange of the documentation, scaled. *)
Lemma scale_color_brightness_witness :
  exists out,
    scale_color_brightness [255; 128; 0] (Some 128) = Ok out
    /\ out = [128; 64; 0]
    /\ Forall is_byte out.
Proof.
  assert (Hb : is_byte 128) by (unfold is_byte; lia).
  assert (Hc : Forall is_byte [255; 128; 0])
    by (repeat constructor; unfold is_byte; lia).
  destruct (scale_color_brightness_correct [255; 128; 0])
    as (_ & _ & _ & H & _).
  destruct (H 128 Hb Hc) as (out & E & Eo & F).
  exists out. split; [exact E|]. split; [|exact F].
  rewrite Eo. reflexivity.
Defined.

(** C2: the level range is (1, 100); a load at level 100 reports
    brightness 255, and turning the light on at that brightness sends
    level 100.0 back, which is within 1 of the level started from. *)
Theorem brightness_roundtrip_100 (obj : Load) (kwargs : turn_on_kwargs)
    (l : num) :
  load_level obj = Some l ->
  l = Int 100 \/ l = Float 100%float ->
  LEVEL_RANGE = (Int 1, Int 100)
  /\ exists b,
       brightness obj = Ok (Some b)
       /\ b = 255
       /\ (kw_brightness kwargs = Some b ->
           exists level,
             async_turn_on kwargs
             = Ok (TurnOn (get_default (kw_transition kwargs) (Int 0))
                     (Float level))
             /\ level = 100%float
             /\ PrimFloat.leb (PrimFloat.abs (level - 100)%float) 1%float
                = true).
Proof.
  intros Hl Hv. split; [reflexivity|].
  exists 255. split.
  - unfold brightness. rewrite Hl. destruct Hv as [-> | ->]; reflexivity.
  - split; [reflexivity|]. intros Hb.
    exists 100%float. unfold async_turn_on. rewrite Hb.
    split; [reflexivity|]. split; reflexivity.
Qed.

Lemma brightness_roundtrip_100_witness :
  exists b,
    brightness {| load_id := 12; load_name := "Kitchen";
                  load_level := Some (Int 100) |} = Ok (Some b)
    /\ async_turn_on {| kw_transition := None; kw_brightness := Some b |}
       = Ok (TurnOn (Int 0) (Float 100%float)).
Proof.
  destruct (brightness_roundtrip_100
              {| load_id := 12; load_name := "Kitchen";
                 load_level := Some (Int 100) |}
              {| kw_transition := None; kw_brightness := Some 255 |}
              (Int 100) eq_refl (or_introl eq_refl))
    as (_ & b & Hb & Eb & Hon).
  exists b. split; [exact Hb|].
  subst b. destruct (Hon eq_refl) as (level & E & -> & _). exact E.
Defined.

End LightProps.

(** ** number.py and switch.py *)

Module VariableProps.
Import Hass Spec PyFacts.

Lemma literals_nearest :
  int_truediv 12345 1000 = Ok lit_12_345
  /\ int_truediv 1001 1000 = Ok lit_1_001.
Proof. split; vm_compute; reflexivity. Qed.

Lemma gmem_get_set (ctl : gmem_controller) (vid : Z) (v : value) (o : GMem) :
  gmem_get ctl vid = Some o ->
  gmem_get (gmem_set_value ctl vid v) vid = Some (set_gmem_value v o).
Proof.
  unfold gmem_get, gmem_set_value.
  induction ctl as [|x ctl IH]; cbn; [discriminate|].
  destruct (gmem_id x =? vid) eqn:E; cbn.
  - rewrite E. now intros [= ->].
  - rewrite E. exact IH.
Qed.

Lemma lit_1_001_not_1 : lit_1_001 <> 1%float.
Proof.
  intros H.
  assert (E : Prim2SF lit_1_001 = Prim2SF 1%float) by now rewrite H.
  vm_compute in E. discriminate.
Qed.

(** C3: on a fixed-precision variable, setting 12.345 stores 12345 and
    reading back yields 12.345; setting 1.001, also a value with three
    decimals, stores 1000, because the product [1.001 * 1000] is the float
    just below 1001 and [int] truncates it, and reading back yields 1.0. *)
Theorem fixed_set_value_truncates (ctl : gmem_controller) (obj : GMem) :
  is_fixed obj = true ->
  gmem_get ctl (gmem_id obj) = Some obj ->
  (Number.async_set_native_value ctl obj lit_12_345
   = Ok (gmem_set_value ctl (gmem_id obj) (VInt 12345))
   /\ Number.set_then_read ctl obj lit_12_345 = Ok (VFloat lit_12_345))
  /\ (Number.async_set_native_value ctl obj lit_1_001
      = Ok (gmem_set_value ctl (gmem_id obj) (VInt 1000))
      /\ Number.set_then_read ctl obj lit_1_001 = Ok (VFloat 1%float)
      /\ lit_1_001 <> 1%float).
Proof.
  intros Hf Hg.
  assert (E1 : Number.native_to_remote obj lit_12_345 = Ok 12345)
    by (unfold Number.native_to_remote; rewrite Hf; vm_compute; reflexivity).
  assert (E2 : Number.native_to_remote obj lit_1_001 = Ok 1000)
    by (unfold Number.native_to_remote; rewrite Hf; vm_compute; reflexivity).
  unfold Number.set_then_read, Number.async_set_native_value.
  rewrite E1, E2. cbn [bind].
  rewrite !(gmem_get_set ctl _ _ obj Hg).
  unfold Number.native_value.
  cbn [gmem_value set_gmem_value is_fixed int_value].
  rewrite Hf.
  repeat split; try reflexivity; try (vm_compute; reflexivity).
  apply lit_1_001_not_1.
Qed.

Lemma fixed_set_value_truncates_witness :
  let obj := {| gmem_id := 7; gmem_name := "Setpoint";
                tag_type := "Decimal"; gmem_value := VInt 0;
                is_fixed := true |} in
  Number.set_then_read [obj] obj lit_1_001 = Ok (VFloat 1%float)
  /\ Number.set_then_read [obj] obj lit_12_345 = Ok (VFloat lit_12_345).
Proof.
  intros obj.
  destruct (fixed_set_value_truncates [obj] obj eq_refl eq_refl)
    as ((_ & A) & (_ & B & _)).
  split; [exact B|exact A].
Defined.

(** C9: when the variable's value is not an [int] instance, the switch's
    [is_on] and the number's [native_value] are [None]; when it is the
    integer [z], [is_on] is its truth value and [native_value] is [z], or
    [z / 1000] for a fixed-precision variable.  ([bool] is a subclass of
    [int]: a [bool] value is projected the same way.) *)
Theorem variable_state_projection (obj : GMem) :
  (isinstance_int (gmem_value obj) = false ->
   Switch.is_on obj = None /\ Number.native_value obj = Ok VNone)
  /\ (forall z, gmem_value obj = VInt z ->
      Switch.is_on obj = Some (negb (z =? 0))
      /\ Number.native_value obj
         = if is_fixed obj then fmap VFloat (int_truediv z 1000)
           else Ok (VInt z))
  /\ (forall b, gmem_value obj = VBool b ->
      Switch.is_on obj = Some b
      /\ Number.native_value obj
         = if is_fixed obj
           then fmap VFloat (int_truediv (if b then 1 else 0) 1000)
           else Ok (VBool b)).
Proof.
  unfold Switch.is_on, Number.native_value.
  repeat split.
  - now rewrite H.
  - destruct (gmem_value obj); try discriminate; reflexivity.
  - now rewrite H.
  - rewrite H. reflexivity.
  - now rewrite H.
  - rewrite H. reflexivity.
Qed.

(** A text variable has no state; an integer one has. *)
Lemma variable_state_projection_witness :
  Number.native_value {| gmem_id := 3; gmem_name := "Label";
                         tag_type := "Text"; gmem_value := VStr "on";
                         is_fixed := false |} = Ok VNone
  /\ Number.native_value {| gmem_id := 4; gmem_name := "Setpoint";
                            tag_type := "DegC"; gmem_value := VInt 21500;
                            is_fixed := true |}
     = fmap VFloat (int_truediv 21500 1000).
Proof.
  split.
  - apply (variable_state_projection
             {| gmem_id := 3; gmem_name := "Label"; tag_type := "Text";
                gmem_value := VStr "on"; is_fixed := false |}).
    reflexivity.
  - apply (proj1 (proj2 (variable_state_projection
             {| gmem_id := 4; gmem_name := "Setpoint"; tag_type := "DegC";
                gmem_value := VInt 21500; is_fixed := true |})) 21500).
    reflexivity.
Defined.

End VariableProps.

(** ** Entity initialisation on unknown variants *)

Module EntityInitProps.
Import Hass Light Spec.

Lemma not_known_tag (t : string) :
  ~ In t Number.known_tag_types ->
  Forall (fun k => String.eqb t k = false) Number.known_tag_types.
Proof.
  intros H. apply Forall_forall. intros k Hk.
  apply String.eqb_neq. intros ->. now apply H.
Qed.

(** C5: an RGB load whose colour-space tag is none of HSL, RGB, RGBW and
    CCT is initialised with the brightness-only set of colour modes and one
    warning is logged; a numeric variable whose tag type has no case is
    initialised with every attribute left at the platform default and one
    warning is logged.  Both initialisers are total: they return for every
    object. *)
Theorem unknown_variant_falls_back :
  (forall (obj : RGBLoad) (a : LightAttrs) (log : logger),
      ~ recognized_color_type (color_type obj) ->
      supported_color_modes (fst (rgb_post_init obj a log))
      = [ColorMode.BRIGHTNESS]
      /\ color_mode (fst (rgb_post_init obj a log))
         = Some ColorMode.BRIGHTNESS
      /\ snd (rgb_post_init obj a log)
         = (log ++ [LogRecord WARNING
                      "Unsupported color type %s for RGB light %s"
                      [ArgEnum (ColorType.member (color_type obj));
                       ArgStr (rgb_name obj)]])%list)
  /\ (forall (obj : GMem) (a : Number.NumberAttrs) (log : logger),
         ~ In (tag_type obj) Number.known_tag_types ->
         fst (Number.post_init obj a log) = a
         /\ snd (Number.post_init obj a log)
            = (log ++ [LogRecord WARNING "Unknown number type %s: %s"
                         [ArgStr (tag_type obj);
                          ArgObject (gmem_id obj)]])%list).
Proof.
  split.
  - intros obj a log H. unfold rgb_post_init, recognized_color_type in *.
    destruct (color_type obj); try (exfalso; apply H; tauto).
    cbn. repeat split.
  - intros obj a log H. apply not_known_tag in H.
    unfold Number.known_tag_types in H.
    repeat match goal with
           | H : Forall _ (_ :: _) |- _ => inversion H; clear H; subst
           end.
    unfold Number.post_init.
    repeat match goal with
           | E : String.eqb _ _ = false |- _ => rewrite E; clear E
           end.
    cbn. split; reflexivity.
Qed.

Lemma unknown_variant_falls_back_witness :
  supported_color_modes
    (fst (rgb_post_init
            {| rgb_id := 31; rgb_name := "Cove"; min_temp := 2700;
               max_temp := 6500; color_type := ColorType.Other "HSIC" |}
            {| supported_color_modes := []; color_mode := None;
               supported_features := 0; min_color_temp_kelvin := None;
               max_color_temp_kelvin := None |} []))
  = [ColorMode.BRIGHTNESS]
  /\ fst (Number.post_init
            {| gmem_id := 3; gmem_name := "Label"; tag_type := "Text";
               gmem_value := VStr "on"; is_fixed := false |}
            {| Number.native_min_value := None;
               Number.native_max_value := None;
               Number.native_step := None;
               Number.native_unit_of_measurement := None;
               Number.number_device_class := None |} [])
     = {| Number.native_min_value := None;
          Number.native_max_value := None;
          Number.native_step := None;
          Number.native_unit_of_measurement := None;
          Number.number_device_class := None |}.
Proof.
  destruct unknown_variant_falls_back as [R N]. split.
  - apply R. cbn. unfold recognized_color_type.
    intros [H|[H|[H|H]]]; discriminate.
  - apply N. cbn. intros H.
    repeat (destruct H as [H|H]; [discriminate|]). exact H.
Defined.

End EntityInitProps.

(** ** __init__.py *)

Module IntegrationProps.
Import Vantage Integration Spec.

(** C6: when the body of the [try] raises [err], setup raises
    - an exception of class [ConfigEntryAuthFailed] with cause [err] when
      [err] is an instance of [LoginRequiredError] or of
      [LoginFailedError];
    - otherwise an exception of class [ConfigEntryNotReady] with cause
      [err] when [err] is an instance of [ClientConnectionError];
    - otherwise [err] itself, unchanged.
    When the body completes, setup returns [True]. *)
Theorem setup_remaps_two_failures (s : setup_steps) :
  create_client s = Ok tt ->
  (forall err, try_body s = Raise err ->
     (isinstance_exn err "LoginRequiredError" = true
      \/ isinstance_exn err "LoginFailedError" = true ->
      exists bases,
        async_setup_entry s
        = Raise (Exn "ConfigEntryAuthFailed" bases (Some err)))
     /\ (isinstance_exn err "LoginRequiredError" = false ->
         isinstance_exn err "LoginFailedError" = false ->
         isinstance_exn err "ClientConnectionError" = true ->
         exists bases,
           async_setup_entry s
           = Raise (Exn "ConfigEntryNotReady" bases (Some err)))
     /\ (isinstance_exn err "LoginRequiredError" = false ->
         isinstance_exn err "LoginFailedError" = false ->
         isinstance_exn err "ClientConnectionError" = false ->
         async_setup_entry s = Raise err))
  /\ (try_body s = Ok tt -> async_setup_entry s = Ok true).
Proof.
  intros Hc. unfold async_setup_entry. rewrite Hc. cbn [bind].
  split.
  - intros err He. rewrite He. unfold handle.
    unfold LoginRequiredError, LoginFailedError, ClientConnectionError.
    split; [|split].
    + intros [H|H]; rewrite H; [|rewrite orb_true_r]; eexists; reflexivity.
    + intros H1 H2 H3. rewrite H1, H2, H3. eexists. reflexivity.
    + intros H1 H2 H3. rewrite H1, H2, H3. reflexivity.
  - intros He. now rewrite He.
Qed.

Lemma setup_remaps_two_failures_witness :
  let login_failed :=
    Exn "LoginFailedError" ["ClientError"; "Exception"] None in
  let timeout :=
    Exn "ClientTimeoutError"
      ["TimeoutError"; "ClientConnectionError"; "ClientError"; "Exception"]
      None in
  let steps r :=
    {| create_client := Ok tt; initialize := r; setup_devices := Ok tt;
       setup_events := Ok tt; forward_entry_setups := Ok tt;
       cleanup_entities := Ok tt |} in
  (exists bases,
      async_setup_entry (steps (Raise login_failed))
      = Raise (Exn "ConfigEntryAuthFailed" bases (Some login_failed)))
  /\ (exists bases,
        async_setup_entry (steps (Raise timeout))
        = Raise (Exn "ConfigEntryNotReady" bases (Some timeout)))
  /\ async_setup_entry (steps (Raise ValueError)) = Raise ValueError.
Proof.
  intros login_failed timeout steps.
  split; [|split].
  - destruct (setup_remaps_two_failures (steps (Raise login_failed)) eq_refl)
      as [H _].
    destruct (H login_failed eq_refl) as (A & _ & _).
    apply A. right. reflexivity.
  - destruct (setup_remaps_two_failures (steps (Raise timeout)) eq_refl)
      as [H _].
    destruct (H timeout eq_refl) as (_ & A & _). now apply A.
  - destruct (setup_remaps_two_failures (steps (Raise ValueError)) eq_refl)
      as [H _].
    destruct (H ValueError eq_refl) as (_ & _ & A). now apply A.
Defined.

End IntegrationProps.

Module EventProps.
Import Vantage Integration Spec.

Section WithDomain.

Variable DOMAIN : string.

Lemma event_names_differ :
  EVENT_BUTTON_PRESSED DOMAIN <> EVENT_BUTTON_RELEASED DOMAIN.
Proof.
  unfold EVENT_BUTTON_PRESSED, EVENT_BUTTON_RELEASED.
  induction DOMAIN as [|c s IH]; cbn.
  - discriminate.
  - intros [= H]. now apply IH.
Qed.

Lemma pressed_changed (attrs : list string) :
  existsb (String.eqb "pressed") attrs = true <-> In "pressed" attrs.
Proof.
  rewrite existsb_exists. split.
  - intros (x & Hx & E). apply String.eqb_eq in E. now subst.
  - intros H. exists "pressed". split; [exact H|apply String.eqb_refl].
Qed.

(** C4: an update notification whose changed attributes include
    ["pressed"] fires exactly one event: the event [<DOMAIN>_button_pressed]
    when the button's [pressed] attribute is [True], and the event
    [<DOMAIN>_button_released] when it is [False] or [None] (the two event
    types differ).  Its payload has [button_id] equal to the object's id,
    [button_name], [button_position], and, exactly when the parent station
    resolves, [station_id] and [station_name].  An update notification
    that does not include ["pressed"] fires nothing. *)
Theorem button_update_fires_one_event (stations : controller) (b : bus)
    (obj : Button) (attrs_changed : list string) :
  (In "pressed" attrs_changed ->
   exists p,
     (pressed obj = Some true ->
      deliver DOMAIN stations b OBJECT_UPDATED obj attrs_changed
      = (b ++ [((DOMAIN ++ "_button_pressed")%string, p)])%list)
     /\ (pressed obj = Some false \/ pressed obj = None ->
         deliver DOMAIN stations b OBJECT_UPDATED obj attrs_changed
         = (b ++ [((DOMAIN ++ "_button_released")%string, p)])%list)
     /\ payload_get p "button_id" = Some (VInt (button_id obj))
     /\ payload_get p "button_name" = Some (VStr (button_name obj))
     /\ payload_get p "button_position" = Some (VStr "TODO")
     /\ (forall station,
           get stations (button_parent_id obj) = Some station ->
           payload_get p "station_id" = Some (VInt (obj_id station))
           /\ payload_get p "station_name" = Some (VStr (obj_name station)))
     /\ (get stations (button_parent_id obj) = None ->
         payload_get p "station_id" = None
         /\ payload_get p "station_name" = None))
  /\ (~ In "pressed" attrs_changed ->
      deliver DOMAIN stations b OBJECT_UPDATED obj attrs_changed = b)
  /\ (DOMAIN ++ "_button_pressed")%string
     <> (DOMAIN ++ "_button_released")%string.
Proof.
  unfold deliver, button_update_callback. cbn [VantageEvent_eqb].
  split; [|split].
  - intros H. apply pressed_changed in H. rewrite H. cbn [negb].
    unfold EVENT_BUTTON_PRESSED, EVENT_BUTTON_RELEASED.
    destruct (get stations (button_parent_id obj)) as [st|] eqn:Est.
    + eexists. split; [|split].
      * intros ->. reflexivity.
      * intros [->| ->]; reflexivity.
      * cbn. split; [reflexivity|]. split; [reflexivity|].
        split; [reflexivity|]. split.
        -- intros station [= <-]. split; reflexivity.
        -- discriminate.
    + eexists. split; [|split].
      * intros ->. reflexivity.
      * intros [->| ->]; reflexivity.
      * cbn. split; [reflexivity|]. split; [reflexivity|].
        split; [reflexivity|]. split.
        -- discriminate.
        -- intros _. split; reflexivity.
  - intros H.
    destruct (existsb (String.eqb "pressed") attrs_changed) eqn:E.
    + apply pressed_changed in E. contradiction.
    + reflexivity.
  - apply event_names_differ.
Qed.

End WithDomain.

Lemma button_update_fires_one_event_witness :
  let keypad :=
    {| obj_id := 40; obj_name := "Hall Keypad"; display_name := "Hall";
       vantage_type := "Keypad"; is_master := false; is_station := true;
       obj_area := None; obj_serial := None; obj_parent := None;
       obj_master := 1; application_version := "" |} in
  let button state :=
    {| button_id := 41; button_name := "All Off"; button_parent_id := 40;
       pressed := state |} in
  (exists p,
      deliver "vantage" [keypad] [] OBJECT_UPDATED (button (Some true))
        ["pressed"]
      = [("vantage_button_pressed", p)]
      /\ payload_get p "button_id" = Some (VInt 41)
      /\ payload_get p "station_id" = Some (VInt 40))
  /\ (exists p,
        deliver "vantage" [keypad] [] OBJECT_UPDATED (button (Some false))
          ["pressed"]
        = [("vantage_button_released", p)])
  /\ (exists p,
        deliver "vantage" [keypad] [] OBJECT_UPDATED (button None)
          ["pressed"]
        = [("vantage_button_released", p)]).
Proof.
  intros keypad button. split; [|split].
  - destruct (button_update_fires_one_event "vantage" [keypad] []
                (button (Some true)) ["pressed"]) as [H _].
    destruct (H (or_introl eq_refl)) as (p & E & _ & Hid & _ & _ & Hst & _).
    exists p. split; [exact (E eq_refl)|]. split; [exact Hid|].
    exact (proj1 (Hst keypad eq_refl)).
  - destruct (button_update_fires_one_event "vantage" [keypad] []
                (button (Some false)) ["pressed"]) as [H _].
    destruct (H (or_introl eq_refl)) as (p & _ & E & _).
    exists p. exact (E (or_introl eq_refl)).
  - destruct (button_update_fires_one_event "vantage" [keypad] []
                (button None) ["pressed"]) as [H _].
    destruct (H (or_introl eq_refl)) as (p & _ & E & _).
    exists p. exact (E (or_intror eq_refl)).
Defined.

End EventProps.

(** ** device.py *)

Module DeviceProps.
Import Vantage DeviceRegistry Device Spec DeviceSpec PyFacts.

Section Registry.

Variable DOMAIN : string.
Variable entry : string.

Lemma identifier_eqb_eq (a b : identifier) :
  identifier_eqb a b = true <-> a = b.
Proof.
  destruct a as [a1 a2], b as [b1 b2]. unfold identifier_eqb. cbn.
  rewrite andb_true_iff, !String.eqb_eq.
  split; [intros [-> ->]; reflexivity | intros [= -> ->]; auto].
Qed.

Lemma has_identifier_In (i : identifier) (d : DeviceEntry) :
  has_identifier i d = true <-> In i (dev_identifiers d).
Proof.
  unfold has_identifier. rewrite existsb_exists. split.
  - intros (x & Hx & E). apply identifier_eqb_eq in E. now subst.
  - intros H. exists i. split; [exact H|now apply identifier_eqb_eq].
Qed.

Lemma find_pointwise {A} (f g : A -> bool) (l : list A) :
  (forall x, f x = g x) -> find f l = find g l.
Proof.
  intros H. induction l as [|a l IH]; cbn; [reflexivity|].
  now rewrite H, IH.
Qed.

Lemma get_device_single (reg : registry) (i : identifier) :
  async_get_device reg [i] = find (has_identifier i) reg.
Proof.
  unfold async_get_device. apply find_pointwise.
  intros d. cbn. apply orb_false_r.
Qed.

Lemma at_most_one {A} (l : list A) (a b : A) :
  (List.length l <= 1)%nat -> In a l -> In b l -> a = b.
Proof.
  destruct l as [|x [|y l]]; cbn; intros H Ha Hb; try lia; try easy.
  destruct Ha as [<-|[]], Hb as [<-|[]]. reflexivity.
Qed.

Lemma unique_record (reg : registry) (i : identifier) (x d : DeviceEntry) :
  (count i reg <= 1)%nat -> In x reg -> In d reg ->
  has_identifier i x = true -> has_identifier i d = true -> x = d.
Proof.
  intros H Hx Hd Ex Ed.
  apply (at_most_one (filter (has_identifier i) reg)); [exact H| |];
    apply filter_In; auto.
Qed.

Lemma same_id_same_record (reg : registry) (x d : DeviceEntry) :
  NoDup (map dev_id reg) -> In x reg -> In d reg ->
  dev_id x = dev_id d -> x = d.
Proof.
  induction reg as [|a reg IH]; cbn; [easy|].
  intros N Hx Hd E. inversion N as [|? ? Hn N']; subst.
  destruct Hx as [->|Hx], Hd as [->|Hd]; auto.
  - exfalso. apply Hn. rewrite E. now apply in_map.
  - exfalso. apply Hn. rewrite <- E. now apply in_map.
Qed.

Lemma fresh_id_bound (reg : registry) (d : DeviceEntry) :
  In d reg -> (dev_id d < fresh_id reg)%nat.
Proof.
  unfold fresh_id. induction reg as [|a reg IH]; cbn; [easy|].
  intros [->|H]; [lia|]. specialize (IH H). lia.
Qed.

Lemma fresh_id_not_in (reg : registry) : ~ In (fresh_id reg) (map dev_id reg).
Proof.
  intros H. apply in_map_iff in H as (d & E & Hd).
  apply fresh_id_bound in Hd. lia.
Qed.

(** *** The shape of [async_get_or_create] for one identifier *)

Variable info : DeviceInfo.
Variable i : identifier.
Hypothesis info_ids : identifiers info = Some [i].

Local Abbreviation touch := (DeviceSpec.touch entry info i).
Local Abbreviation created := (DeviceSpec.created entry info i).

Lemma apply_info_id (x : DeviceEntry) :
  dev_id (apply_info entry info x) = dev_id x.
Proof. reflexivity. Qed.

Lemma apply_info_identifiers (x : DeviceEntry) :
  has_identifier i x = true ->
  dev_identifiers (apply_info entry info x) = dev_identifiers x.
Proof.
  intros H. unfold apply_info. cbn. rewrite info_ids. cbn.
  unfold has_identifier in H. now rewrite H.
Qed.

Lemma apply_info_new (n : nat) :
  dev_identifiers (apply_info entry info (new_entry n)) = [i].
Proof. unfold apply_info. cbn. rewrite info_ids. reflexivity. Qed.

Lemma touch_id (x : DeviceEntry) : dev_id (touch x) = dev_id x.
Proof. unfold DeviceSpec.touch. now destruct (has_identifier i x). Qed.

Lemma touch_identifiers (x : DeviceEntry) :
  dev_identifiers (touch x) = dev_identifiers x.
Proof.
  unfold DeviceSpec.touch. destruct (has_identifier i x) eqn:E; [|reflexivity].
  now apply apply_info_identifiers.
Qed.

Lemma touch_has (j : identifier) (x : DeviceEntry) :
  has_identifier j (touch x) = has_identifier j x.
Proof. unfold has_identifier. now rewrite touch_identifiers. Qed.

Lemma get_or_create_shape (reg : registry) :
  registry_wf DOMAIN reg ->
  async_get_or_create reg entry info = (map touch reg ++ created reg)%list.
Proof.
  intros [Hids Huniq _].
  unfold async_get_or_create, DeviceSpec.created.
  rewrite info_ids, get_device_single.
  destruct (find (has_identifier i) reg) as [d|] eqn:F.
  - apply find_some in F as [Hd Ed].
    assert (X : existsb (has_identifier i) reg = true)
      by (apply existsb_exists; eauto).
    rewrite X, app_nil_r. unfold update_device.
    apply map_ext_in. intros x Hx. unfold DeviceSpec.touch.
    destruct (Nat.eqb (dev_id x) (dev_id d)) eqn:E.
    + apply Nat.eqb_eq in E.
      rewrite (same_id_same_record reg x d Hids Hx Hd E). now rewrite Ed.
    + destruct (has_identifier i x) eqn:Ex; [|reflexivity].
      rewrite (unique_record reg i x d (Huniq i) Hx Hd Ex Ed) in E.
      now rewrite Nat.eqb_refl in E.
  - assert (X : existsb (has_identifier i) reg = false).
    { destruct (existsb (has_identifier i) reg) eqn:X; [|reflexivity].
      apply existsb_exists in X as (x & Hx & Ex).
      now rewrite (find_none _ _ F x Hx) in Ex. }
    rewrite X. f_equal.
    rewrite <- (map_id reg) at 1. apply map_ext_in.
    intros x Hx. unfold DeviceSpec.touch. now rewrite (find_none _ _ F x Hx).
Qed.


(** *** Counting records *)

Lemma filter_map_length {A} (p : A -> bool) (f : A -> A) (l : list A) :
  (forall x, p (f x) = p x) ->
  List.length (filter p (map f l)) = List.length (filter p l).
Proof.
  intros H. induction l as [|a l IH]; cbn; [reflexivity|].
  rewrite H. destruct (p a); cbn; now rewrite IH.
Qed.

Lemma count_app (j : identifier) (a b : registry) :
  count j (a ++ b)%list = (count j a + count j b)%nat.
Proof. unfold count. now rewrite filter_app, length_app. Qed.

Lemma count_touch (j : identifier) (reg : registry) :
  count j (map touch reg) = count j reg.
Proof. apply filter_map_length. intros x. apply touch_has. Qed.

Lemma count_none (j : identifier) (reg : registry) :
  existsb (has_identifier j) reg = false -> count j reg = 0%nat.
Proof.
  unfold count. induction reg as [|a reg IH]; cbn; [reflexivity|].
  intros H. apply orb_false_iff in H as [Ha H]. rewrite Ha. now apply IH.
Qed.

Lemma count_some (j : identifier) (reg : registry) (d : DeviceEntry) :
  In d reg -> has_identifier j d = true -> (1 <= count j reg)%nat.
Proof.
  intros Hd E. unfold count.
  assert (X : In d (filter (has_identifier j) reg)) by (apply filter_In; auto).
  destruct (filter (has_identifier j) reg); [easy|cbn; lia].
Qed.

Lemma count_created (j : identifier) (reg : registry) :
  count j (created reg)
  = if existsb (has_identifier i) reg then 0%nat
    else if identifier_eqb j i then 1%nat else 0%nat.
Proof.
  unfold DeviceSpec.created.
  destruct (existsb (has_identifier i) reg); [reflexivity|].
  unfold count. cbn [filter]. unfold has_identifier.
  rewrite apply_info_new. cbn [existsb]. rewrite orb_false_r.
  now destruct (identifier_eqb j i).
Qed.

Lemma count_get_or_create (j : identifier) (reg : registry) :
  registry_wf DOMAIN reg ->
  count j (async_get_or_create reg entry info)
  = (count j reg + count j (created reg))%nat.
Proof.
  intros W. rewrite (get_or_create_shape reg W), count_app, count_touch.
  reflexivity.
Qed.

Lemma count_get_or_create_le (j : identifier) (reg : registry) :
  registry_wf DOMAIN reg ->
  (count j (async_get_or_create reg entry info) <= 1)%nat.
Proof.
  intros W. rewrite (count_get_or_create j reg W), count_created.
  pose proof (wf_unique _ _ W j) as U.
  destruct (existsb (has_identifier i) reg) eqn:X; [lia|].
  destruct (identifier_eqb j i) eqn:E; [|lia].
  apply identifier_eqb_eq in E. subst j.
  rewrite (count_none i reg X). lia.
Qed.

(** *** One step of registration *)

Lemma get_or_create_wf (reg : registry) :
  registry_wf DOMAIN reg ->
  registry_wf DOMAIN (async_get_or_create reg entry info).
Proof.
  intros W. split.
  - rewrite (get_or_create_shape reg W), map_app, map_map.
    rewrite (map_ext _ dev_id touch_id).
    unfold DeviceSpec.created.
    destruct (existsb (has_identifier i) reg).
    + cbn. rewrite app_nil_r. apply (wf_ids _ _ W).
    + cbn. apply NoDup_app.
      * apply (wf_ids _ _ W).
      * constructor; [easy|constructor].
      * intros a Ha [<-|[]]. now apply (fresh_id_not_in reg).
  - intros j. now apply count_get_or_create_le.
  - intros d a b Hd Ha Hb Fa Fb.
    rewrite (get_or_create_shape reg W) in Hd.
    apply in_app_or in Hd as [Hd|Hd].
    + apply in_map_iff in Hd as (x & <- & Hx).
      rewrite touch_identifiers in Ha, Hb.
      exact (wf_single _ _ W x a b Hx Ha Hb Fa Fb).
    + unfold DeviceSpec.created in Hd.
      destruct (existsb (has_identifier i) reg); [easy|].
      destruct Hd as [<-|[]]. rewrite apply_info_new in Ha, Hb.
      destruct Ha as [<-|[]], Hb as [<-|[]]. reflexivity.
Qed.


Lemma add_entry_claims (l : list string) :
  existsb (String.eqb entry) (add_entry entry l) = true.
Proof.
  unfold add_entry.
  destruct (existsb (String.eqb entry) l) eqn:E; [exact E|].
  rewrite existsb_app. cbn. rewrite String.eqb_refl. apply orb_true_r.
Qed.

Lemma add_entry_keeps (l : list string) :
  existsb (String.eqb entry) l = true -> add_entry entry l = l.
Proof. intros H. unfold add_entry. now rewrite H. Qed.

Lemma apply_info_claimed (x : DeviceEntry) :
  claimed entry (apply_info entry info x) = true.
Proof. unfold claimed, apply_info. cbn. apply add_entry_claims. Qed.

Lemma touch_claimed (x : DeviceEntry) :
  claimed entry x = true -> claimed entry (touch x) = true.
Proof.
  intros H. unfold DeviceSpec.touch.
  destruct (has_identifier i x); [apply apply_info_claimed|exact H].
Qed.

Lemma merge_twice (old : list identifier) :
  merge_identifiers (merge_identifiers old [i]) [i]
  = merge_identifiers old [i].
Proof.
  unfold merge_identifiers. cbn.
  destruct (existsb (identifier_eqb i) old) eqn:E.
  - now rewrite E.
  - rewrite existsb_app. cbn.
    assert (R : identifier_eqb i i = true) by now apply identifier_eqb_eq.
    rewrite R, orb_true_r. reflexivity.
Qed.

Lemma apply_info_twice (x : DeviceEntry) :
  apply_info entry info (apply_info entry info x) = apply_info entry info x.
Proof.
  unfold apply_info. cbn. rewrite info_ids. f_equal.
  - apply add_entry_keeps, add_entry_claims.
  - apply merge_twice.
Qed.

Lemma has_new (n : nat) :
  has_identifier i (apply_info entry info (new_entry n)) = true.
Proof.
  unfold has_identifier. rewrite apply_info_new. cbn.
  rewrite orb_false_r. now apply identifier_eqb_eq.
Qed.

(** The record that answers to [i] after the step. *)
Lemma get_or_create_record (reg : registry) :
  registry_wf DOMAIN reg ->
  exists d,
    In d (async_get_or_create reg entry info)
    /\ has_identifier i d = true
    /\ claimed entry d = true
    /\ apply_info entry info d = d.
Proof.
  intros W. rewrite (get_or_create_shape reg W).
  destruct (existsb (has_identifier i) reg) eqn:X.
  - apply existsb_exists in X as (x & Hx & Ex).
    exists (apply_info entry info x). split.
    + apply in_or_app. left. apply in_map_iff. exists x.
      split; [|exact Hx]. unfold DeviceSpec.touch. now rewrite Ex.
    + split; [|split].
      * unfold has_identifier. rewrite (apply_info_identifiers x Ex).
        exact Ex.
      * apply apply_info_claimed.
      * apply apply_info_twice.
  - exists (apply_info entry info (new_entry (fresh_id reg))). split.
    + apply in_or_app. right. unfold DeviceSpec.created. rewrite X.
      now left.
    + split; [apply has_new|]. split; [apply apply_info_claimed|].
      apply apply_info_twice.
Qed.


Lemma get_or_create_count_one (reg : registry) :
  registry_wf DOMAIN reg ->
  count i (async_get_or_create reg entry info) = 1%nat.
Proof.
  intros W.
  destruct (get_or_create_record reg W) as (d & Hd & Ed & _).
  pose proof (count_some i _ d Hd Ed).
  pose proof (count_get_or_create_le i reg W). lia.
Qed.

Lemma get_or_create_count_kept (j : identifier) (reg : registry) :
  registry_wf DOMAIN reg -> count j reg = 1%nat ->
  count j (async_get_or_create reg entry info) = 1%nat.
Proof.
  intros W H.
  pose proof (count_get_or_create j reg W).
  pose proof (count_get_or_create_le j reg W). lia.
Qed.

Lemma get_or_create_present (reg : registry) :
  registry_wf DOMAIN reg ->
  present entry i (async_get_or_create reg entry info).
Proof.
  intros W. destruct (get_or_create_record reg W) as (d & Hd & Ed & C & _).
  exists d. auto.
Qed.

Lemma get_or_create_present_kept (j : identifier) (reg : registry) :
  registry_wf DOMAIN reg -> present entry j reg ->
  present entry j (async_get_or_create reg entry info).
Proof.
  intros W (d & Hd & Ed & C). rewrite (get_or_create_shape reg W).
  exists (touch d). split.
  - apply in_or_app. left. now apply in_map.
  - split; [now rewrite touch_has|now apply touch_claimed].
Qed.

End Registry.

Section Parsing.

Variable DOMAIN : string.

Lemma vid_of_identifier (d : DeviceEntry) (z : Z) :
  (forall a b, In a (dev_identifiers d) -> In b (dev_identifiers d) ->
               fst a = DOMAIN -> fst b = DOMAIN -> a = b) ->
  In (device_identifier DOMAIN z) (dev_identifiers d) ->
  vid_of DOMAIN d = Ok z.
Proof.
  intros S H. unfold vid_of, domain_device_id.
  destruct (find (fun x => String.eqb (fst x) DOMAIN) (dev_identifiers d))
    as [x|] eqn:F.
  - apply find_some in F as [Hx Ex]. apply String.eqb_eq in Ex.
    rewrite (S x (device_identifier DOMAIN z) Hx H Ex eq_refl).
    cbn. unfold vantage_id_of. rewrite split_head_str.
    apply int_of_str_str.
  - pose proof (find_none _ _ F _ H) as X. cbn in X.
    now rewrite String.eqb_refl in X.
Qed.

Lemma vid_of_same_identifiers (d d' : DeviceEntry) :
  dev_identifiers d' = dev_identifiers d -> vid_of DOMAIN d' = vid_of DOMAIN d.
Proof.
  intros E. unfold vid_of, domain_device_id. now rewrite E.
Qed.

Variable entry : string.

Lemma get_or_create_parses (info : DeviceInfo) (z : Z) (reg : registry) :
  identifiers info = Some [device_identifier DOMAIN z] ->
  registry_wf DOMAIN reg -> entry_parses DOMAIN entry reg ->
  entry_parses DOMAIN entry (async_get_or_create reg entry info).
Proof.
  intros Hi W P d Hd C.
  pose proof (get_or_create_wf DOMAIN entry info _ Hi reg W) as W'.
  destruct (has_identifier (device_identifier DOMAIN z) d) eqn:E.
  - exists z. apply vid_of_identifier.
    + intros a b. now apply (wf_single _ _ W' d).
    + now apply has_identifier_In.
  - rewrite (get_or_create_shape DOMAIN entry info _ Hi reg W) in Hd.
    apply in_app_or in Hd as [Hd|Hd].
    + apply in_map_iff in Hd as (x & <- & Hx).
      rewrite (touch_has entry info _ Hi) in E.
      unfold DeviceSpec.touch in *. rewrite E in *. now apply P.
    + unfold DeviceSpec.created in Hd.
      destruct (existsb _ reg); [easy|]. destruct Hd as [<-|[]].
      now rewrite (has_new entry info _ Hi) in E.
Qed.

(** *** The registration phase *)

Lemma register_all_cons (s : Z * DeviceInfo) (steps : list (Z * DeviceInfo))
    (reg : registry) :
  register_all entry (s :: steps) reg
  = register_all entry steps (async_get_or_create reg entry (snd s)).
Proof. reflexivity. Qed.

Lemma register_all_props (steps : list (Z * DeviceInfo)) :
  Forall (keyed DOMAIN) steps ->
  forall reg,
    registry_wf DOMAIN reg -> entry_parses DOMAIN entry reg ->
    registry_wf DOMAIN (register_all entry steps reg)
    /\ entry_parses DOMAIN entry (register_all entry steps reg)
    /\ (forall j, count j reg = 1%nat ->
                  count j (register_all entry steps reg) = 1%nat)
    /\ (forall j, present entry j reg ->
                  present entry j (register_all entry steps reg))
    /\ (forall s, In s steps ->
          count (device_identifier DOMAIN (fst s))
            (register_all entry steps reg) = 1%nat
          /\ present entry (device_identifier DOMAIN (fst s))
               (register_all entry steps reg)).
Proof.
  induction 1 as [|s steps Hs _ IH]; intros reg W P.
  - cbn. split; [exact W|]. split; [exact P|].
    split; [auto|]. split; [auto|]. intros s [].
  - rewrite !register_all_cons.
    pose proof (get_or_create_wf DOMAIN entry _ _ Hs reg W) as W1.
    pose proof (get_or_create_parses _ _ reg Hs W P) as P1.
    destruct (IH _ W1 P1) as (W2 & P2 & C2 & Q2 & S2).
    split; [exact W2|]. split; [exact P2|]. split; [|split].
    + intros j Hj. apply C2.
      exact (get_or_create_count_kept DOMAIN entry _ _ Hs j reg W Hj).
    + intros j Hj. apply Q2.
      exact (get_or_create_present_kept DOMAIN entry _ _ Hs j reg W Hj).
    + intros s' [<-|Hin]; [|now apply S2]. split.
      * apply C2. exact (get_or_create_count_one DOMAIN entry _ _ Hs reg W).
      * apply Q2. exact (get_or_create_present DOMAIN entry _ _ Hs reg W).
Qed.

End Parsing.

Section Cleanup.

Variable DOMAIN : string.
Variable client : Client.
Variable entry : string.

(** Sweeping twice is sweeping once with both tests. *)
Lemma filter_twice (keep1 keep2 : DeviceEntry -> bool) (reg : registry) :
  filter keep2 (filter keep1 reg) = filter (fun x => keep1 x && keep2 x) reg.
Proof.
  induction reg as [|d reg IH]; [reflexivity|]. cbn [filter].
  destruct (keep1 d) eqn:E1; cbn [filter andb]; rewrite IH; reflexivity.
Qed.

Lemma cleanup_filter (ds : list DeviceEntry) :
  (forall d, In d ds -> exists z, vid_of DOMAIN d = Ok z) ->
  forall reg,
    cleanup DOMAIN client ds reg
    = Ok (filter
            (fun x => negb (existsb
                              (fun d => Nat.eqb (dev_id x) (dev_id d)
                                        && stale DOMAIN client d) ds))
            reg).
Proof.
  induction ds as [|d ds IH]; intros P reg.
  - cbn. now rewrite filter_true.
  - destruct (P d (or_introl eq_refl)) as [z Hz].
    assert (Sd : stale DOMAIN client d = negb (contains client z))
      by (unfold stale; now rewrite Hz).
    cbn [cleanup]. unfold vid_of in Hz.
    destruct (domain_device_id DOMAIN d) as [device_id|]; [|discriminate].
    cbn [bind] in Hz |- *. rewrite Hz. cbn [bind].
    rewrite IH by (intros d' Hd'; apply P; now right).
    f_equal. destruct (negb (contains client z)).
    + unfold async_remove_device. rewrite filter_twice.
      apply filter_ext. intros x. cbn [existsb].
      rewrite Sd, andb_true_r, negb_orb. reflexivity.
    + apply filter_ext. intros x. cbn [existsb].
      now rewrite Sd, andb_false_r.
Qed.

Lemma swept (reg : registry) (x : DeviceEntry) :
  NoDup (map dev_id reg) -> In x reg ->
  existsb (fun d => Nat.eqb (dev_id x) (dev_id d) && stale DOMAIN client d)
    (async_entries_for_config_entry reg entry)
  = claimed entry x && stale DOMAIN client x.
Proof.
  intros N Hx. unfold async_entries_for_config_entry.
  fold (claimed entry).
  destruct (claimed entry x && stale DOMAIN client x) eqn:E.
  - apply andb_prop in E as [C S]. apply existsb_exists. exists x.
    split; [apply filter_In; auto|]. now rewrite Nat.eqb_refl.
  - destruct (existsb _ _) eqn:X; [|reflexivity].
    apply existsb_exists in X as (d & Hd & Ed).
    apply filter_In in Hd as [Hd C]. apply andb_prop in Ed as [I S].
    apply Nat.eqb_eq in I.
    rewrite (same_id_same_record reg x d N Hx Hd I) in E.
    now rewrite C, S in E.
Qed.

Lemma cleanup_entry (reg : registry) :
  registry_wf DOMAIN reg -> entry_parses DOMAIN entry reg ->
  cleanup DOMAIN client (async_entries_for_config_entry reg entry) reg
  = Ok (filter (kept DOMAIN client entry) reg).
Proof.
  intros W P. rewrite cleanup_filter.
  - f_equal. apply filter_ext_in. intros x Hx. unfold kept.
    now rewrite (swept reg x (wf_ids _ _ W) Hx).
  - intros d Hd. apply filter_In in Hd as [Hd C]. now apply P.
Qed.

(** *** [register_items] as a sequence of calls *)

Lemma register_items_plain (ctl : controller) (reg : registry) :
  register_items DOMAIN client entry None ctl reg
  = Ok (register_all entry (map (plain_step DOMAIN client) ctl) reg).
Proof.
  revert reg. induction ctl as [|o ctl IH]; intros reg; [reflexivity|].
  cbn [register_items map]. unfold add_device. cbn [bind].
  rewrite IH. reflexivity.
Qed.

Lemma register_items_masters (version_of : SystemObject -> result string)
    (ctl : controller) (reg : registry) :
  (forall m, In m ctl -> exists v, version_of m = Ok v) ->
  register_items DOMAIN client entry
    (Some (extra_master_info version_of)) ctl reg
  = Ok (register_all entry
          (map (master_step DOMAIN client version_of) ctl) reg).
Proof.
  revert reg. induction ctl as [|o ctl IH]; intros reg V; [reflexivity|].
  destruct (V o (or_introl eq_refl)) as [v Hv].
  cbn [register_items map]. unfold add_device, extra_master_info.
  rewrite Hv. cbn [bind].
  rewrite IH by (intros m Hm; apply V; now right).
  unfold master_step at 2. rewrite Hv. reflexivity.
Qed.

Lemma setup_as_steps (version_of : SystemObject -> result string)
    (reg : registry) :
  versions_known client version_of ->
  async_setup_devices DOMAIN client entry version_of reg
  = cleanup DOMAIN client
      (async_entries_for_config_entry
         (register_all entry (setup_steps DOMAIN client version_of) reg)
         entry)
      (register_all entry (setup_steps DOMAIN client version_of) reg).
Proof.
  intros V. unfold async_setup_devices, setup_steps.
  rewrite (register_items_masters version_of _ reg V). cbn [bind].
  repeat (rewrite register_items_plain; cbn [bind]).
  unfold register_all. rewrite !map_app, !fold_left_app. reflexivity.
Qed.

End Cleanup.




Section Rerun.

Variable DOMAIN : string.
Variable entry : string.

Local Abbreviation ident := (device_identifier DOMAIN).
Local Abbreviation touch_step s :=
  (DeviceSpec.touch entry (snd s) (ident (fst s))).

Lemma touch_all_cons (s : Z * DeviceInfo) (steps : list (Z * DeviceInfo))
    (x : DeviceEntry) :
  touch_all DOMAIN entry (s :: steps) x
  = touch_all DOMAIN entry steps (touch_step s x).
Proof. reflexivity. Qed.

(** A call finds nothing to do on a record that the entry has claimed. *)
Lemma touch_claimed_same (s : Z * DeviceInfo) (x : DeviceEntry) :
  keyed DOMAIN s -> claimed entry x = true -> touch_step s x = x.
Proof.
  intros K C. unfold DeviceSpec.touch.
  destruct (has_identifier (ident (fst s)) x) eqn:E; [|reflexivity].
  pose proof (apply_info_identifiers entry (snd s) _ K x E) as I.
  unfold apply_info in *. cbn in I. rewrite I.
  rewrite (add_entry_keeps entry _ C). now destruct x.
Qed.

(** Neither does a sequence of calls on a record that is claimed or that
    none of the calls names. *)
Lemma touch_all_same (steps : list (Z * DeviceInfo)) (x : DeviceEntry) :
  Forall (keyed DOMAIN) steps ->
  (forall s, In s steps -> has_identifier (ident (fst s)) x = true ->
             claimed entry x = true) ->
  touch_all DOMAIN entry steps x = x.
Proof.
  induction 1 as [|s steps K _ IH]; intros H; [reflexivity|].
  rewrite touch_all_cons.
  assert (E : touch_step s x = x).
  { unfold DeviceSpec.touch.
    destruct (has_identifier (ident (fst s)) x) eqn:E; [|reflexivity].
    pose proof (touch_claimed_same s x K (H s (or_introl eq_refl) E)) as T.
    unfold DeviceSpec.touch in T. now rewrite E in T. }
  rewrite E. apply IH. intros s' Hs'. apply H. now right.
Qed.

Lemma count_exists (j : identifier) (reg : registry) :
  count j reg = 1%nat -> existsb (has_identifier j) reg = true.
Proof.
  intros H. destruct (existsb (has_identifier j) reg) eqn:E; [reflexivity|].
  rewrite (count_none j reg E) in H. discriminate.
Qed.

(** On a registry that already has a record for every call, the
    registration phase only touches records. *)
Lemma register_all_touch (steps : list (Z * DeviceInfo)) :
  Forall (keyed DOMAIN) steps ->
  forall reg,
    registry_wf DOMAIN reg ->
    (forall s, In s steps ->
               existsb (has_identifier (ident (fst s))) reg = true) ->
    register_all entry steps reg = map (touch_all DOMAIN entry steps) reg.
Proof.
  induction 1 as [|s steps K _ IH]; intros reg W X.
  - cbn. now rewrite map_id.
  - rewrite register_all_cons.
    assert (E : async_get_or_create reg entry (snd s)
                = map (touch_step s) reg).
    { rewrite (get_or_create_shape DOMAIN entry _ _ K reg W).
      unfold DeviceSpec.created. rewrite (X s (or_introl eq_refl)).
      apply app_nil_r. }
    pose proof (get_or_create_wf DOMAIN entry _ _ K reg W) as W1.
    rewrite E in *. rewrite IH; auto.
    + rewrite map_map. apply map_ext. intros x. now rewrite touch_all_cons.
    + intros s' Hs'.
      rewrite <- (X s' (or_intror Hs')). clear - K.
      induction reg as [|a reg IHr]; cbn; [reflexivity|].
      now rewrite (touch_has entry (snd s) _ K), IHr.
Qed.

End Rerun.

Section Filter.

Variable DOMAIN : string.
Variable entry : string.

(** Dropping records keeps the record keys distinct. *)
Lemma filter_ids (keep : DeviceEntry -> bool) (reg : registry) :
  NoDup (map dev_id reg) -> NoDup (map dev_id (filter keep reg)).
Proof.
  induction reg as [|d reg IH]; intros N; [constructor|].
  apply NoDup_cons_iff in N as [Hd N]. cbn [filter].
  destruct (keep d); [|now apply IH]. cbn [map].
  apply NoDup_cons; [|now apply IH].
  intros H. apply Hd. apply in_map_iff in H as (x & E & Hx).
  apply in_map_iff. exists x. split; [exact E|].
  now apply filter_In in Hx.
Qed.

Lemma count_filter_le (j : identifier) (p : DeviceEntry -> bool)
    (reg : registry) :
  (count j (filter p reg) <= count j reg)%nat.
Proof.
  unfold count. rewrite filter_twice.
  rewrite (filter_ext _ (fun x => has_identifier j x && p x)
             (fun x => andb_comm _ _)).
  rewrite <- filter_twice. apply filter_length_le.
Qed.

Lemma count_le_length (j : identifier) (reg : registry) :
  (count j reg <= List.length reg)%nat.
Proof. apply filter_length_le. Qed.

Lemma filter_wf (p : DeviceEntry -> bool) (reg : registry) :
  registry_wf DOMAIN reg -> registry_wf DOMAIN (filter p reg).
Proof.
  intros [N U S]. split.
  - now apply filter_ids.
  - intros j. pose proof (count_filter_le j p reg). specialize (U j). lia.
  - intros d a b Hd. apply filter_In in Hd as [Hd _]. now apply S.
Qed.

Lemma filter_parses (p : DeviceEntry -> bool) (reg : registry) :
  entry_parses DOMAIN entry reg -> entry_parses DOMAIN entry (filter p reg).
Proof. intros P d Hd. apply filter_In in Hd as [Hd _]. now apply P. Qed.

(** A sweep whose test every record passes changes nothing. *)
Lemma filter_same (keep : DeviceEntry -> bool) (reg : registry) :
  (forall x, In x reg -> keep x = true) -> filter keep reg = reg.
Proof.
  intros H. apply forallb_filter_id, forallb_forall, H.
Qed.

(** A registry with one record that has one identifier is well formed. *)
Lemma singleton_wf (d : DeviceEntry) (i : identifier) :
  dev_identifiers d = [i] -> registry_wf DOMAIN [d].
Proof.
  intros E. split.
  - cbn. constructor; [easy|constructor].
  - intros j. apply (count_le_length j [d]).
  - intros x a b [<-|[]]. rewrite E. now intros [<-|[]] [<-|[]].
Qed.

Lemma empty_wf : registry_wf DOMAIN [].
Proof.
  split; [constructor|intros; cbn; lia|intros ? ? ? []].
Qed.

End Filter.

Section Setup.

Variable DOMAIN : string.
Variable entry : string.
Variable client : Client.
Variable version_of : SystemObject -> result string.

Local Abbreviation ident := (device_identifier DOMAIN).
Local Abbreviation steps := (setup_steps DOMAIN client version_of).
Local Abbreviation setup :=
  (async_setup_devices DOMAIN client entry version_of).

Lemma master_step_keyed (o : SystemObject) :
  keyed DOMAIN (master_step DOMAIN client version_of o).
Proof.
  unfold keyed, master_step. cbn. now destruct (version_of o).
Qed.

Lemma steps_keyed : Forall (keyed DOMAIN) steps.
Proof.
  unfold setup_steps. apply Forall_app. split; apply Forall_forall;
    intros s Hs; apply in_map_iff in Hs as (o & <- & _).
  - apply master_step_keyed.
  - reflexivity.
Qed.

Lemma steps_cover (obj : SystemObject) :
  In obj (enumerated client) ->
  exists s, In s steps /\ fst s = obj_id obj.
Proof.
  unfold enumerated, setup_steps. intros H.
  apply in_app_or in H as [H|H].
  - exists (master_step DOMAIN client version_of obj). split; [|reflexivity].
    apply in_or_app. left. now apply in_map.
  - exists (plain_step DOMAIN client obj). split; [|reflexivity].
    apply in_or_app. right. now apply in_map.
Qed.

Lemma enumerated_contained (obj : SystemObject) :
  In obj (enumerated client) -> contains client (obj_id obj) = true.
Proof.
  intros H. unfold contains. apply existsb_exists.
  exists (obj_id obj). split; [|apply Z.eqb_refl].
  unfold known_ids, enumerated in *.
  rewrite !app_assoc. do 3 (apply in_or_app; left).
  rewrite <- !app_assoc, <- !map_app. now apply in_map.
Qed.

Lemma kept_record (reg : registry) (d : DeviceEntry) (z : Z) :
  registry_wf DOMAIN reg -> In d reg ->
  has_identifier (ident z) d = true -> contains client z = true ->
  kept DOMAIN client entry d = true.
Proof.
  intros W Hd E C. unfold kept, stale.
  rewrite (vid_of_identifier DOMAIN d z).
  - rewrite C. cbn. now rewrite andb_false_r.
  - intros a b. now apply (wf_single _ _ W d).
  - now apply has_identifier_In.
Qed.

Lemma kept_claimed (reg : registry) (d : DeviceEntry) :
  entry_parses DOMAIN entry reg -> In d reg ->
  kept DOMAIN client entry d = true -> claimed entry d = true ->
  exists z, vid_of DOMAIN d = Ok z /\ contains client z = true.
Proof.
  intros P Hd K C. destruct (P d Hd C) as [z Hz]. exists z.
  split; [exact Hz|]. unfold kept, stale in K. rewrite C, Hz in K.
  cbn in K. now destruct (contains client z).
Qed.

Lemma setup_outcome (reg : registry) :
  registry_wf DOMAIN reg ->
  entry_parses DOMAIN entry reg ->
  versions_known client version_of ->
  registry_wf DOMAIN (register_all entry steps reg)
  /\ entry_parses DOMAIN entry (register_all entry steps reg)
  /\ setup reg
     = Ok (filter (kept DOMAIN client entry) (register_all entry steps reg)).
Proof.
  intros W P V.
  destruct (register_all_props DOMAIN entry steps steps_keyed reg W P)
    as (W1 & P1 & _).
  split; [exact W1|]. split; [exact P1|].
  rewrite (setup_as_steps DOMAIN client entry version_of reg V).
  now apply cleanup_entry.
Qed.

(** C1: on a well-formed registry, with every master answering the
    version query, [async_setup_devices] completes, and afterwards
    - every enumerated object (master, module, port device, station) has
      exactly one record answering to the identity derived from its id,
      and that record is claimed by the config entry;
    - every record claimed by the config entry encodes an object id that
      the client holds (the others were removed);
    - the registry is still well formed (no identity is shared);
    - running setup again on the same client gives the same registry:
      the same records, in the same order, with the same keys, identifiers
      and claims, and none added.  (A record of the model is its key, its
      identifiers and its claims; what the host stores besides, such as
      the link to a parent's record that it can only resolve once the
      parent is registered, is not compared.) *)
Theorem setup_devices_reconciles (reg : registry) :
  registry_wf DOMAIN reg ->
  entry_parses DOMAIN entry reg ->
  versions_known client version_of ->
  exists reg',
    setup reg = Ok reg'
    /\ (forall obj, In obj (enumerated client) ->
          count (ident (obj_id obj)) reg' = 1%nat
          /\ present entry (ident (obj_id obj)) reg')
    /\ (forall d, In d reg' -> claimed entry d = true ->
          exists z, vid_of DOMAIN d = Ok z /\ contains client z = true)
    /\ registry_wf DOMAIN reg'
    /\ setup reg' = Ok reg'.
Proof.
  intros W P V.
  destruct (register_all_props DOMAIN entry steps steps_keyed reg W P)
    as (W1 & P1 & _ & _ & S1).
  set (R1 := register_all entry steps reg) in *.
  assert (E : setup reg = Ok (filter (kept DOMAIN client entry) R1))
    by now apply setup_outcome.
  set (reg' := filter (kept DOMAIN client entry) R1) in *.
  assert (W' : registry_wf DOMAIN reg') by now apply filter_wf.
  assert (P' : entry_parses DOMAIN entry reg') by now apply filter_parses.
  assert (A : forall obj, In obj (enumerated client) ->
                count (ident (obj_id obj)) reg' = 1%nat
                /\ present entry (ident (obj_id obj)) reg').
  { intros obj Ho. destruct (steps_cover obj Ho) as (s & Hs & Es).
    destruct (S1 s Hs) as [_ (d & Hd & Ed & Cd)]. rewrite Es in *.
    assert (Hd' : In d reg').
    { apply filter_In. split; [exact Hd|].
      apply (kept_record R1 d (obj_id obj)); auto.
      now apply enumerated_contained. }
    split.
    - pose proof (count_some _ _ d Hd' Ed).
      pose proof (wf_unique _ _ W' (ident (obj_id obj))). lia.
    - exists d. auto. }
  assert (B : forall d, In d reg' -> claimed entry d = true ->
                exists z, vid_of DOMAIN d = Ok z /\ contains client z = true).
  { intros d Hd C. apply filter_In in Hd as [Hd K].
    now apply (kept_claimed R1 d). }
  exists reg'. split; [exact E|]. split; [exact A|]. split; [exact B|].
  split; [exact W'|].
  rewrite (setup_as_steps DOMAIN client entry version_of reg' V).
  assert (T : register_all entry steps reg' = reg').
  { rewrite (register_all_touch DOMAIN entry steps steps_keyed reg' W').
    - rewrite <- (map_id reg') at 2. apply map_ext_in. intros x Hx.
      apply (touch_all_same DOMAIN entry steps x steps_keyed).
      intros s Hs Ex.
      assert (Hs' : exists o, In o (enumerated client) /\ fst s = obj_id o).
      { unfold setup_steps in Hs. apply in_app_or in Hs as [Hs|Hs];
          apply in_map_iff in Hs as (o & <- & Ho); exists o;
          (split; [unfold enumerated; apply in_or_app; auto|reflexivity]). }
      destruct Hs' as (o & Ho & Eo). rewrite Eo in Ex.
      destruct (A o Ho) as [_ (d & Hd & Ed & Cd)].
      now rewrite (unique_record reg' _ x d (wf_unique _ _ W' _) Hx Hd Ex Ed).
    - intros s Hs. apply count_exists.
      unfold setup_steps in Hs. apply in_app_or in Hs as [Hs|Hs];
        apply in_map_iff in Hs as (o & <- & Ho); apply A;
        unfold enumerated; apply in_or_app; auto. }
  rewrite T, (cleanup_entry DOMAIN client entry reg' W' P').
  f_equal. apply filter_same. intros x Hx.
  now apply filter_In in Hx as [_ K].
Qed.

(** *** Removal *)

Lemma remove_device_filter (reg : registry) (obj : SystemObject) :
  registry_wf DOMAIN reg ->
  remove_device DOMAIN reg obj
  = filter (fun x => negb (has_identifier (ident (obj_id obj)) x)) reg.
Proof.
  intros [N U _]. unfold remove_device. rewrite get_device_single.
  destruct (find (has_identifier (ident (obj_id obj))) reg) as [d|] eqn:F.
  - apply find_some in F as [Hd Ed]. unfold async_remove_device.
    apply filter_ext_in. intros x Hx. f_equal.
    destruct (Nat.eqb (dev_id x) (dev_id d)) eqn:E.
    + apply Nat.eqb_eq in E.
      now rewrite (same_id_same_record reg x d N Hx Hd E).
    + destruct (has_identifier (ident (obj_id obj)) x) eqn:Ex; [|reflexivity].
      rewrite (unique_record reg _ x d (U _) Hx Hd Ex Ed) in E.
      now rewrite Nat.eqb_refl in E.
  - symmetry. apply filter_same. intros x Hx.
    now rewrite (find_none _ _ F x Hx).
Qed.

Lemma count_removed (j : identifier) (reg : registry) :
  count j (filter (fun x => negb (has_identifier j x)) reg) = 0%nat.
Proof.
  apply count_none.
  destruct (existsb _ _) eqn:X; [|reflexivity].
  apply existsb_exists in X as (x & Hx & Ex).
  apply filter_In in Hx as [_ Hn]. now rewrite Ex in Hn.
Qed.

Lemma get_device_none (j : identifier) (reg : registry) :
  count j reg = 0%nat -> async_get_device reg [j] = None.
Proof.
  intros C. rewrite get_device_single.
  destruct (find (has_identifier j) reg) as [d|] eqn:F; [|reflexivity].
  apply find_some in F as [Hd Ed].
  pose proof (count_some j reg d Hd Ed). lia.
Qed.

(** C8: on a well-formed registry, a delete notification for an object
    removes the record answering to the identity derived from its id, and
    only that one: afterwards no record answers to it, the registry is
    shorter by the number of records that did (at most one) and every
    other record is still there; a second removal finds no record and
    leaves the registry as it is.  When the object is instead absent from
    the client at the next setup, setup completes and no record claimed by
    the config entry answers to that identity any more; if the entry had
    claimed the object's record, no record at all does. *)
Theorem device_removed_once (extra : option extra_info_fn) (reg : registry)
    (obj : SystemObject) :
  registry_wf DOMAIN reg ->
  (exists reg1,
      handle_device_event DOMAIN client entry extra reg OBJECT_DELETED obj
      = Ok reg1
      /\ count (ident (obj_id obj)) reg1 = 0%nat
      /\ (List.length reg1 + count (ident (obj_id obj)) reg
          = List.length reg)%nat
      /\ (count (ident (obj_id obj)) reg <= 1)%nat
      /\ (forall d, In d reg ->
                    has_identifier (ident (obj_id obj)) d = false ->
                    In d reg1)
      /\ async_get_device reg1 [ident (obj_id obj)] = None
      /\ remove_device DOMAIN reg1 obj = reg1)
  /\ (entry_parses DOMAIN entry reg ->
      versions_known client version_of ->
      contains client (obj_id obj) = false ->
      exists reg',
        setup reg = Ok reg'
        /\ (forall d, In d reg' -> claimed entry d = true ->
                      has_identifier (ident (obj_id obj)) d = false)
        /\ (present entry (ident (obj_id obj)) reg ->
            count (ident (obj_id obj)) reg' = 0%nat)).
Proof.
  intros W. split.
  - exists (remove_device DOMAIN reg obj). cbn [handle_device_event
      VantageEvent_eqb]. unfold handle_device_event. cbn [VantageEvent_eqb].
    split; [reflexivity|].
    rewrite (remove_device_filter reg obj W).
    pose proof (count_removed (ident (obj_id obj)) reg) as C0.
    split; [exact C0|]. split.
    { unfold count.
      rewrite <- (filter_length (has_identifier (ident (obj_id obj))) reg).
      apply Nat.add_comm. }
    split; [apply (wf_unique _ _ W)|]. split.
    + intros d Hd Ed. apply filter_In. split; [exact Hd|]. now rewrite Ed.
    + pose proof (get_device_none _ _ C0) as G. split; [exact G|].
      unfold remove_device. now rewrite G.
  - intros P V Cn.
    destruct (setup_outcome reg W P V) as (W1 & P1 & E).
    set (R1 := register_all entry steps reg) in *.
    assert (B : forall d, In d (filter (kept DOMAIN client entry) R1) ->
                  claimed entry d = true ->
                  has_identifier (ident (obj_id obj)) d = false).
    { intros d Hd C. apply filter_In in Hd as [Hd K].
      destruct (has_identifier (ident (obj_id obj)) d) eqn:Ed; [|reflexivity].
      destruct (kept_claimed R1 d P1 Hd K C) as (z & Hz & Cz).
      rewrite (vid_of_identifier DOMAIN d (obj_id obj)) in Hz.
      - injection Hz as <-. now rewrite Cn in Cz.
      - intros a b. now apply (wf_single _ _ W1 d).
      - now apply has_identifier_In. }
    eexists. split; [exact E|]. split; [exact B|].
    intros Pr. apply count_none.
    destruct (existsb _ _) eqn:X; [|reflexivity].
    apply existsb_exists in X as (d & Hd & Ed).
    destruct (register_all_props DOMAIN entry steps steps_keyed reg W P)
      as (_ & _ & _ & Q & _).
    destruct (Q _ Pr) as (d0 & Hd0 & Ed0 & C0).
    pose proof Hd as Hd'. apply filter_In in Hd' as [Hd' _].
    rewrite (unique_record R1 _ d d0 (wf_unique _ _ W1 _) Hd' Hd0 Ed Ed0)
      in *.
    now rewrite (B d0 Hd C0) in Ed0.
Qed.

(** *** Parent linkage *)

(** C7: the via-device link of a non-master object points to its parent
    when the object has one, the client holds the parent's id and the
    parent is not a back box; in every other case it points to the
    object's master.  (A master has no link.) *)
Theorem via_device_link (obj : SystemObject) :
  is_master obj = false ->
  (forall p,
      obj_parent obj = Some p ->
      contains client p = true ->
      get (back_boxes client) p = None ->
      via_device (vantage_device_info DOMAIN client obj) = Some (ident p))
  /\ (forall p,
        obj_parent obj = Some p ->
        contains client p = false \/ get (back_boxes client) p <> None ->
        via_device (vantage_device_info DOMAIN client obj)
        = Some (ident (obj_master obj)))
  /\ (obj_parent obj = None ->
      via_device (vantage_device_info DOMAIN client obj)
      = Some (ident (obj_master obj))).
Proof.
  intros M. unfold vantage_device_info. cbn [via_device]. rewrite M.
  cbn [negb]. unfold via_device_of. split; [|split].
  - intros p -> C B. now rewrite C, B.
  - intros p -> [C|B].
    + now rewrite C.
    + destruct (get (back_boxes client) p); [|contradiction].
      now rewrite andb_false_r.
  - now intros ->.
Qed.

End Setup.


Lemma setup_devices_reconciles_witness :
  exists reg',
    async_setup_devices "vantage" sample_client "entry-1" sample_version []
    = Ok reg'
    /\ count (device_identifier "vantage" 41) reg' = 1%nat
    /\ async_setup_devices "vantage" sample_client "entry-1" sample_version
         reg' = Ok reg'.
Proof.
  assert (P : entry_parses "vantage" "entry-1" []) by (intros d []).
  assert (V : versions_known sample_client sample_version)
    by (intros m _; eexists; reflexivity).
  destruct (setup_devices_reconciles "vantage" "entry-1" sample_client
              sample_version [] (empty_wf "vantage") P V)
    as (reg' & E & A & _ & _ & I).
  exists reg'. split; [exact E|]. split; [|exact I].
  apply (A sample_keypad). cbn. right. right. left. reflexivity.
Defined.

Lemma device_removed_once_witness :
  (exists reg1,
      handle_device_event "vantage" sample_client_without_keypad "entry-1"
        None [sample_keypad_record] OBJECT_DELETED sample_keypad = Ok reg1
      /\ List.length reg1 = 0%nat
      /\ remove_device "vantage" reg1 sample_keypad = reg1)
  /\ (exists reg',
        async_setup_devices "vantage" sample_client_without_keypad "entry-1"
          sample_version [sample_keypad_record] = Ok reg'
        /\ count (device_identifier "vantage" 41) reg' = 0%nat).
Proof.
  destruct (device_removed_once "vantage" "entry-1"
              sample_client_without_keypad sample_version None
              [sample_keypad_record] sample_keypad
              (singleton_wf "vantage" sample_keypad_record _ eq_refl))
    as [(reg1 & E & _ & L & _ & _ & _ & R) S].
  split.
  - exists reg1. split; [exact E|]. split; [|exact R].
    cbn in L. lia.
  - assert (P : entry_parses "vantage" "entry-1" [sample_keypad_record])
      by (intros d [<-|[]] _; exists 41; reflexivity).
    assert (V : versions_known sample_client_without_keypad sample_version)
      by (intros m _; eexists; reflexivity).
    destruct (S P V eq_refl) as (reg' & E' & _ & C).
    exists reg'. split; [exact E'|]. apply C.
    exists sample_keypad_record. split; [now left|]. split; reflexivity.
Defined.

Lemma via_device_link_witness :
  via_device (vantage_device_info "vantage" sample_client sample_keypad)
  = Some (device_identifier "vantage" 7).
Proof.
  apply (proj1 (via_device_link "vantage" sample_client sample_keypad
                  eq_refl) 7); reflexivity.
Defined.

End DeviceProps.

(** ** light.py: brightness and colour commands *)

Module LightMoreProps.
Import Hass Light LightEntities Spec MoreSpec PyFacts.

Lemma brightness_table : forallb brightness_check brightness_values = true.
Proof. vm_cast_no_check (eq_refl true). Qed.

Lemma level_table : forallb level_check level_values = true.
Proof. vm_cast_no_check (eq_refl true). Qed.

Lemma in_brightness_values (b : Z) : 1 <= b <= 255 -> In b brightness_values.
Proof.
  intros [H0 H1]. unfold brightness_values.
  rewrite <- (Z2Nat.id b) by lia. apply in_map, in_seq. lia.
Qed.

Lemma in_level_values (l : Z) : 1 <= l <= 100 -> In l level_values.
Proof.
  intros [H0 H1]. unfold level_values.
  rewrite <- (Z2Nat.id l) by lia. apply in_map, in_seq. lia.
Qed.

(** X1: whatever the level of the load, a brightness that is reported
    lies in 1..255. *)
Theorem brightness_in_range (obj : Load) (b : Z) :
  brightness obj = Ok (Some b) -> 1 <= b <= 255.
Proof.
  unfold brightness. destruct (load_level obj) as [l|]; [|discriminate].
  destruct (to_float l) as [f|]; cbn [bind]; [|discriminate].
  unfold value_to_brightness.
  destruct (scale_to_ranged_value LEVEL_RANGE (Int 1, Int 255) (Float f))
    as [x|]; cbn [bind]; [|discriminate].
  destruct (num_round x) as [n|]; cbn [bind]; [|discriminate].
  intros [= <-]. lia.
Qed.

Lemma brightness_in_range_witness :
  brightness {| load_id := 12; load_name := "Kitchen";
                load_level := Some (Int 0) |} = Ok (Some 1)
  /\ 1 <= 1 <= 255.
Proof.
  split; [reflexivity|].
  apply (brightness_in_range {| load_id := 12; load_name := "Kitchen";
                                load_level := Some (Int 0) |} 1).
  reflexivity.
Defined.

(** X2: for every brightness in 1..255, turning the light on sends a level
    in (0, 100], and a load reporting that level is shown at the same
    brightness again. *)
Theorem brightness_level_round_trip (kwargs : turn_on_kwargs) (b : Z) :
  kw_brightness kwargs = Some b -> 1 <= b <= 255 ->
  exists level,
    async_turn_on kwargs
    = Ok (TurnOn (get_default (kw_transition kwargs) (Int 0)) (Float level))
    /\ PrimFloat.ltb 0%float level = true
    /\ PrimFloat.leb level 100%float = true
    /\ forall obj, load_level obj = Some (Float level) ->
                   brightness obj = Ok (Some b).
Proof.
  intros Hk Hb.
  pose proof brightness_table as T. rewrite forallb_forall in T.
  specialize (T b (in_brightness_values b Hb)). unfold brightness_check in T.
  unfold async_turn_on. rewrite Hk. cbn [get_default].
  destruct (brightness_to_value LEVEL_RANGE b) as [[z|f]|];
    try discriminate.
  destruct (value_to_brightness LEVEL_RANGE (Float f)) as [b'|] eqn:V;
    [|discriminate].
  apply andb_prop in T as [T T3]. apply andb_prop in T as [T1 T2].
  apply Z.eqb_eq in T1. subst b'.
  exists f. cbn [bind]. split; [reflexivity|]. split; [exact T2|].
  split; [exact T3|].
  intros obj Ho. unfold brightness. rewrite Ho. cbn [to_float bind].
  now rewrite V.
Qed.

Lemma brightness_level_round_trip_witness :
  exists level,
    async_turn_on {| kw_transition := None; kw_brightness := Some 128 |}
    = Ok (TurnOn (Int 0) (Float level))
    /\ brightness {| load_id := 12; load_name := "Kitchen";
                     load_level := Some (Float level) |} = Ok (Some 128).
Proof.
  destruct (brightness_level_round_trip
              {| kw_transition := None; kw_brightness := Some 128 |} 128
              eq_refl) as (level & E & _ & _ & B); [lia|].
  exists level. split; [exact E|]. now apply B.
Defined.

(** X3: for every integer level 1..100, the brightness the load is shown
    at, sent back by turning the light on at that brightness, is a level
    within 0.25 of the one started from. *)
Theorem level_brightness_round_trip (obj : Load) (l : Z) :
  load_level obj = Some (Int l) -> 1 <= l <= 100 ->
  exists b fl level,
    brightness obj = Ok (Some b)
    /\ float_of_int l = Ok fl
    /\ (forall kwargs, kw_brightness kwargs = Some b ->
          async_turn_on kwargs
          = Ok (TurnOn (get_default (kw_transition kwargs) (Int 0))
                  (Float level)))
    /\ PrimFloat.leb (PrimFloat.abs (level - fl)%float) 0.25%float = true.
Proof.
  intros Ho Hl.
  pose proof level_table as T. rewrite forallb_forall in T.
  specialize (T l (in_level_values l Hl)). unfold level_check in T.
  destruct (float_of_int l) as [fl|] eqn:F; [|discriminate].
  destruct (value_to_brightness LEVEL_RANGE (Float fl)) as [b|] eqn:V;
    [|discriminate].
  destruct (brightness_to_value LEVEL_RANGE b) as [[z|f]|] eqn:B;
    try discriminate.
  exists b, fl, f. unfold brightness. rewrite Ho. cbn [to_float].
  rewrite F. cbn [bind]. rewrite V. cbn [bind].
  split; [reflexivity|]. split; [reflexivity|]. split; [|exact T].
  intros kwargs Hk. unfold async_turn_on. rewrite Hk. cbn [get_default].
  now rewrite B.
Qed.

Lemma level_brightness_round_trip_witness :
  exists b,
    brightness {| load_id := 12; load_name := "Kitchen";
                  load_level := Some (Int 50) |} = Ok (Some b).
Proof.
  destruct (level_brightness_round_trip
              {| load_id := 12; load_name := "Kitchen";
                 load_level := Some (Int 50) |} 50 eq_refl)
    as (b & _ & _ & E & _); [lia|].
  exists b. exact E.
Defined.

(** X4: after each of the three light initialisers the current colour
    mode is the one supported mode.  A load is a brightness light exactly
    when its power profile is known and dimmable, an on/off light
    otherwise; the transition flag is raised for every mode but on/off
    and RGBW, which leave the feature flags as they were. *)
Theorem color_mode_is_supported (a : LightAttrs) :
  (forall profiles power_profile,
      let a' := load_post_init profiles power_profile a in
      exists m,
        supported_color_modes a' = [m] /\ color_mode a' = Some m
        /\ (m = ColorMode.BRIGHTNESS
            <-> exists p, power_profiles_get profiles power_profile = Some p
                          /\ is_dimmable p = true)
        /\ (m <> ColorMode.BRIGHTNESS ->
            m = ColorMode.ONOFF
            /\ supported_features a' = supported_features a)
        /\ (m = ColorMode.BRIGHTNESS ->
            Z.testbit (supported_features a') 5 = true))
  /\ (forall obj log,
        let a' := fst (rgb_post_init obj a log) in
        exists m,
          supported_color_modes a' = [m] /\ color_mode a' = Some m
          /\ m <> ColorMode.ONOFF
          /\ (m = ColorMode.RGBW ->
              supported_features a' = supported_features a)
          /\ (m <> ColorMode.RGBW ->
              Z.testbit (supported_features a') 5 = true))
  /\ (supported_color_modes (group_post_init a) = [ColorMode.BRIGHTNESS]
      /\ color_mode (group_post_init a) = Some ColorMode.BRIGHTNESS
      /\ Z.testbit (supported_features (group_post_init a)) 5 = true).
Proof.
  assert (T : forall x, Z.testbit (Z.lor x TRANSITION) 5 = true).
  { intros x. rewrite Z.lor_spec. cbn. apply orb_true_r. }
  split; [|split].
  - intros profiles pp. cbn zeta. unfold load_post_init.
    destruct (power_profiles_get profiles pp) as [p|] eqn:G.
    + destruct (is_dimmable p) eqn:D.
      * exists ColorMode.BRIGHTNESS. cbn.
        split; [reflexivity|]. split; [reflexivity|].
        split; [split; eauto|]. split; [congruence|]. intros _. apply T.
      * exists ColorMode.ONOFF. cbn.
        split; [reflexivity|]. split; [reflexivity|]. split.
        -- split; [discriminate|]. intros (q & [= <-] & Q). congruence.
        -- split; [auto|discriminate].
    + exists ColorMode.ONOFF. cbn.
      split; [reflexivity|]. split; [reflexivity|]. split.
      * split; [discriminate|]. intros (q & Q & _). discriminate.
      * split; [auto|discriminate].
  - intros obj log. cbn zeta. unfold rgb_post_init.
    destruct (color_type obj); cbn;
      eexists; (split; [reflexivity|]); (split; [reflexivity|]);
      (split; [discriminate|]);
      (split; [try discriminate; reflexivity|]);
      try (intros _; apply T); try congruence.
  - cbn. split; [reflexivity|]. split; [reflexivity|]. apply T.
Qed.

Lemma color_mode_is_supported_witness :
  exists m,
    supported_color_modes
      (load_post_init [{| profile_id := 9; is_dimmable := true |}] 9
         {| supported_color_modes := []; color_mode := None;
            supported_features := 0; min_color_temp_kelvin := None;
            max_color_temp_kelvin := None |}) = [m]
    /\ m = ColorMode.BRIGHTNESS.
Proof.
  destruct (color_mode_is_supported
              {| supported_color_modes := []; color_mode := None;
                 supported_features := 0; min_color_temp_kelvin := None;
                 max_color_temp_kelvin := None |}) as [L _].
  destruct (L [{| profile_id := 9; is_dimmable := true |}] 9)
    as (m & S & _ & D & _).
  exists m. split; [exact S|]. apply D. eexists. split; reflexivity.
Defined.

Ltac calls_case :=
  split; [|split; [|split; [|split; [|split]]]];
  intros; cbn [In app] in *;
  try discriminate; try (intuition discriminate);
  try (intuition congruence).

(** X5: a successful [async_turn_on] of an RGB light issues one colour
    call when a colour is given (RGBW before RGB before HS), and
    otherwise [turn_on], preceded by [set_color_temp] when a colour
    temperature is given.  So a colour temperature given together with a
    colour is never sent, and [turn_on] is never sent with a colour. *)
Theorem rgb_turn_on_calls (kwargs : rgb_kwargs) (calls : list rgb_command) :
  rgb_async_turn_on kwargs = (calls, Ok tt) ->
  (forall c, rgbw_color kwargs = Some c ->
             exists c', calls = [SetRgbw c']
                        /\ List.length c' = List.length c)
  /\ (forall c, rgbw_color kwargs = None -> rgb_color kwargs = Some c ->
        exists c',
          calls = [DissolveRgb c'
                     (get_default (transition_kw kwargs) (Int 0))]
          /\ List.length c' = List.length c)
  /\ (forall h s, rgbw_color kwargs = None -> rgb_color kwargs = None ->
        hs_color kwargs = Some (h, s) ->
        exists level,
          calls = [DissolveHsl h s level
                     (get_default (transition_kw kwargs) (Int 0))])
  /\ (rgbw_color kwargs = None -> rgb_color kwargs = None ->
      hs_color kwargs = None ->
      exists level,
        calls
        = (match color_temp_kelvin kwargs with
           | Some k => [SetColorTemp k]
           | None => []
           end
           ++ [RgbTurnOn (get_default (transition_kw kwargs) (Int 0))
                 level])%list)
  /\ (forall k, In (SetColorTemp k) calls ->
        rgbw_color kwargs = None /\ rgb_color kwargs = None
        /\ hs_color kwargs = None /\ color_temp_kelvin kwargs = Some k)
  /\ (forall t l, In (RgbTurnOn t l) calls ->
        rgbw_color kwargs = None /\ rgb_color kwargs = None
        /\ hs_color kwargs = None).
Proof.
  unfold rgb_async_turn_on, scaled_color.
  destruct (rgbw_color kwargs) as [w|].
  - assert (L : forall w', w' = w \/ scale_color_brightness w (Some 1) = Ok w' ->
                  List.length w' = List.length w).
    { intros w' [->|E]; [reflexivity|]. now apply traverse_length in E. }
    destruct (brightness_given kwargs);
      [destruct (scale_color_brightness w (Some 1)) as [w'|] eqn:E|];
      intros [= <-]; calls_case; injection H as <-; eauto.
  - destruct (rgb_color kwargs) as [r|].
    + assert (L : forall r', r' = r \/ scale_color_brightness r (Some 1) = Ok r' ->
                    List.length r' = List.length r).
      { intros r' [->|E]; [reflexivity|]. now apply traverse_length in E. }
      destruct (brightness_given kwargs);
        [destruct (scale_color_brightness r (Some 1)) as [r'|] eqn:E|];
        intros [= <-]; calls_case; injection H0 as <-; eauto.
    + destruct (hs_color kwargs) as [[h s]|].
      * destruct (brightness_to_value _ _) as [level|]; intros [= <-].
        calls_case. injection H1 as <- <-. eauto.
      * destruct (brightness_to_value _ _) as [level|]; intros [= <-].
        destruct (color_temp_kelvin kwargs) as [k|]; calls_case; eauto.
Qed.

Lemma rgb_turn_on_calls_witness :
  ~ In (SetColorTemp 3000)
      (fst (rgb_async_turn_on
              {| rgbw_color := None; rgb_color := Some [255; 128; 0];
                 hs_color := None; color_temp_kelvin := Some 3000;
                 brightness_kw := None; transition_kw := None |})).
Proof.
  intros H.
  destruct (rgb_turn_on_calls
              {| rgbw_color := None; rgb_color := Some [255; 128; 0];
                 hs_color := None; color_temp_kelvin := Some 3000;
                 brightness_kw := None; transition_kw := None |}
              [DissolveRgb [255; 128; 0] (Int 0)] eq_refl)
    as (_ & _ & _ & _ & T & _).
  destruct (T 3000 H) as (_ & R & _). discriminate.
Defined.

Lemma one_bit_table : forallb one_bit_check byte_values = true.
Proof. vm_cast_no_check (eq_refl true). Qed.

Lemma scale_by_one (color : list Z) :
  Forall is_byte color ->
  scale_color_brightness color (Some 1) = Ok (map one_bit color).
Proof.
  intros H. cbn. apply traverse_map.
  eapply Forall_impl; [|exact H]. intros c Hc.
  assert (H1 : is_byte 1) by (unfold is_byte; lia).
  destruct (LightProps.scale_component_exact 1 c H1 Hc) as [E _].
  rewrite E. f_equal.
  pose proof one_bit_table as T. rewrite forallb_forall in T.
  specialize (T c (LightProps.in_byte_values c Hc)).
  now apply Z.eqb_eq in T.
Qed.

(** X6: in the RGB and RGBW branches of [async_turn_on] the value of the
    brightness argument is not used, only whether one was given: without
    one the colour is sent as it is; with one, whatever its value, every
    channel is sent as 0 when it is below 128 and as 1 otherwise. *)
Theorem rgb_brightness_value_unused (kwargs : rgb_kwargs) (color : list Z) :
  Forall is_byte color ->
  (rgbw_color kwargs = Some color ->
   rgb_async_turn_on (with_brightness None kwargs)
   = ([SetRgbw color], Ok tt)
   /\ forall b,
       rgb_async_turn_on (with_brightness (Some b) kwargs)
       = ([SetRgbw (map one_bit color)], Ok tt))
  /\ (rgbw_color kwargs = None -> rgb_color kwargs = Some color ->
      rgb_async_turn_on (with_brightness None kwargs)
      = ([DissolveRgb color (get_default (transition_kw kwargs) (Int 0))],
         Ok tt)
      /\ forall b,
          rgb_async_turn_on (with_brightness (Some b) kwargs)
          = ([DissolveRgb (map one_bit color)
                (get_default (transition_kw kwargs) (Int 0))], Ok tt)).
Proof.
  intros H. pose proof (scale_by_one color H) as S.
  unfold rgb_async_turn_on, scaled_color, brightness_given, with_brightness.
  cbn [rgbw_color rgb_color brightness_kw transition_kw].
  split.
  - intros ->. split; [reflexivity|]. intros b. now rewrite S.
  - intros -> ->. split; [reflexivity|]. intros b. now rewrite S.
Qed.

Lemma rgb_brightness_value_unused_witness :
  rgb_async_turn_on
    {| rgbw_color := None; rgb_color := Some [255; 128; 0];
       hs_color := None; color_temp_kelvin := None;
       brightness_kw := Some 200; transition_kw := None |}
  = ([DissolveRgb [1; 1; 0] (Int 0)], Ok tt).
Proof.
  assert (C : Forall is_byte [255; 128; 0])
    by (repeat constructor; unfold is_byte; lia).
  apply (rgb_brightness_value_unused
           {| rgbw_color := None; rgb_color := Some [255; 128; 0];
              hs_color := None; color_temp_kelvin := None;
              brightness_kw := None; transition_kw := None |}
           [255; 128; 0] C); reflexivity.
Defined.

(** 255 is odd, so no quotient by 255 lies half way between two integers
    and rounding to nearest is one integer division. *)
Lemma nearest_even_div_255 (n : Z) :
  nearest_even_div n 255 = (2 * n + 255) / 510.
Proof.
  unfold nearest_even_div. cbn zeta.
  pose proof (Z.div_mod n 255 ltac:(lia)) as E.
  pose proof (Z.mod_pos_bound n 255 ltac:(lia)) as B.
  set (q := n / 255) in *. set (r := n mod 255) in *.
  destruct (2 * r <? 255) eqn:L1.
  - apply Z.ltb_lt in L1. apply (Z.div_unique_pos _ _ q (2 * r + 255)); lia.
  - apply Z.ltb_ge in L1. destruct (255 <? 2 * r) eqn:L2.
    + apply Z.ltb_lt in L2.
      apply (Z.div_unique_pos _ _ (q + 1) (2 * r - 255)); lia.
    + apply Z.ltb_ge in L2. lia.
Qed.

Lemma scaled_le (c b b' : Z) :
  0 <= c -> b <= b' ->
  nearest_even_div (c * b) 255 <= nearest_even_div (c * b') 255.
Proof.
  intros Hc L. rewrite !nearest_even_div_255.
  apply Z.div_le_mono; nia.
Qed.

Lemma channels_le (f g : Z -> Z) (color : list Z) :
  Forall is_byte color ->
  (forall c, is_byte c -> f c <= g c) ->
  Forall2 Z.le (map f color) (map g color).
Proof.
  intros H L. induction H as [|c color Hc _ IH]; cbn; constructor; auto.
Qed.

(** X7: on channel values and brightness in 0..255, scaling never
    brightens a channel, a higher brightness never gives a darker channel,
    and brightness 0 gives black. *)
Theorem scaling_is_monotone (color : list Z) (b b' : Z) :
  Forall is_byte color -> is_byte b -> is_byte b' -> b <= b' ->
  exists out out',
    scale_color_brightness color (Some b) = Ok out
    /\ scale_color_brightness color (Some b') = Ok out'
    /\ Forall2 Z.le out out'
    /\ Forall2 Z.le out' color
    /\ (b = 0 -> out = map (fun _ => 0) color).
Proof.
  intros Hc Hb Hb' L.
  destruct (LightProps.scale_components_exact b color Hb Hc) as [E _].
  destruct (LightProps.scale_components_exact b' color Hb' Hc) as [E' _].
  eexists. eexists. cbn [scale_color_brightness].
  split; [exact E|]. split; [exact E'|]. split; [|split].
  - apply channels_le; [exact Hc|]. intros c Hcb.
    apply scaled_le; [apply Hcb|exact L].
  - rewrite <- (map_id color) at 2. apply channels_le; [exact Hc|].
    intros c Hcb.
    rewrite <- (LightProps.nearest_even_div_full c) at 2.
    apply scaled_le; [apply Hcb|apply Hb'].
  - intros ->. apply map_ext. intros c. now rewrite Z.mul_0_r.
Qed.

Lemma scaling_is_monotone_witness :
  exists out out',
    scale_color_brightness [255; 128; 0] (Some 64) = Ok out
    /\ scale_color_brightness [255; 128; 0] (Some 128) = Ok out'
    /\ Forall2 Z.le out out'.
Proof.
  assert (C : Forall is_byte [255; 128; 0])
    by (repeat constructor; unfold is_byte; lia).
  destruct (scaling_is_monotone [255; 128; 0] 64 128 C)
    as (out & out' & E & E' & M & _); try (unfold is_byte; lia).
  exists out, out'. auto.
Defined.

End LightMoreProps.

(** ** number.py and switch.py: further properties *)

Module VariableMoreProps.
Import Hass Spec MoreSpec PyFacts.

Lemma gmem_get_set_other (ctl : gmem_controller) (vid other : Z)
    (v : value) :
  other <> vid ->
  gmem_get (gmem_set_value ctl vid v) other = gmem_get ctl other.
Proof.
  intros N. unfold gmem_get, gmem_set_value.
  induction ctl as [|x ctl IH]; [reflexivity|]. cbn [map find].
  destruct (gmem_id x =? vid) eqn:E.
  - apply Z.eqb_eq in E. cbn [set_gmem_value gmem_id].
    assert (X : (gmem_id x =? other) = false) by (apply Z.eqb_neq; lia).
    now rewrite X.
  - rewrite IH. reflexivity.
Qed.

(** X8: for every tag type that [__post_init__] has a case for, both
    bounds are assigned, the lower one is below the upper one, and nothing
    is logged. *)
Theorem known_types_have_ordered_bounds (obj : GMem)
    (a : Number.NumberAttrs) (log : logger) :
  In (tag_type obj) Number.known_tag_types ->
  bounds_ordered (fst (Number.post_init obj a log)) = true
  /\ snd (Number.post_init obj a log) = log.
Proof.
  intros H. unfold Number.known_tag_types in H. unfold Number.post_init.
  repeat (destruct H as [<-|H]; [split; vm_compute; reflexivity|]).
  destruct H.
Qed.

Lemma known_types_have_ordered_bounds_witness :
  bounds_ordered
    (fst (Number.post_init
            {| gmem_id := 4; gmem_name := "Setpoint"; tag_type := "DegC";
               gmem_value := VInt 21500; is_fixed := true |}
            no_number_attrs [])) = true.
Proof.
  apply (known_types_have_ordered_bounds
           {| gmem_id := 4; gmem_name := "Setpoint"; tag_type := "DegC";
              gmem_value := VInt 21500; is_fixed := true |}
           no_number_attrs []).
  cbn. tauto.
Defined.

(** X9: turning a variable switch on, then reading the client's copy of
    the variable, gives on; turning it off gives off; every other
    variable of the controller is left as it was. *)
Theorem switch_round_trip (ctl : gmem_controller) (obj : GMem) :
  gmem_get ctl (gmem_id obj) = Some obj ->
  (exists obj',
      gmem_get (Switch.async_turn_on ctl obj) (gmem_id obj) = Some obj'
      /\ Switch.is_on obj' = Some true)
  /\ (exists obj',
        gmem_get (Switch.async_turn_off ctl obj) (gmem_id obj) = Some obj'
        /\ Switch.is_on obj' = Some false)
  /\ (forall other, other <> gmem_id obj ->
        gmem_get (Switch.async_turn_on ctl obj) other = gmem_get ctl other
        /\ gmem_get (Switch.async_turn_off ctl obj) other
           = gmem_get ctl other).
Proof.
  intros H. unfold Switch.async_turn_on, Switch.async_turn_off.
  split; [|split].
  - eexists. split; [apply VariableProps.gmem_get_set, H|reflexivity].
  - eexists. split; [apply VariableProps.gmem_get_set, H|reflexivity].
  - intros other N. split; now apply gmem_get_set_other.
Qed.

Lemma switch_round_trip_witness :
  let flag := {| gmem_id := 5; gmem_name := "Away"; tag_type := "bool";
                 gmem_value := VInt 0; is_fixed := false |} in
  exists obj',
    gmem_get (Switch.async_turn_on [flag] flag) 5 = Some obj'
    /\ Switch.is_on obj' = Some true.
Proof.
  intros flag.
  destruct (switch_round_trip [flag] flag eq_refl) as [H _]. exact H.
Defined.

(** X10: when setting a number returns, the value stored for the variable
    is an [int], so the entity has a state afterwards: the truncated
    argument for a plain variable, a float for a fixed-precision one (or
    the division's error); every other variable is left as it was.  A NaN
    argument raises [ValueError] and nothing is stored. *)
Theorem set_value_stores_int (ctl : gmem_controller) (obj : GMem)
    (v : float) :
  gmem_get ctl (gmem_id obj) = Some obj ->
  (forall ctl', Number.async_set_native_value ctl obj v = Ok ctl' ->
     exists n,
       gmem_get ctl' (gmem_id obj) = Some (set_gmem_value (VInt n) obj)
       /\ (is_fixed obj = false ->
           int_of_float v = Ok n
           /\ Number.set_then_read ctl obj v = Ok (VInt n))
       /\ (is_fixed obj = true ->
           Number.set_then_read ctl obj v
           = fmap VFloat (int_truediv n 1000))
       /\ (forall other, other <> gmem_id obj ->
             gmem_get ctl' other = gmem_get ctl other))
  /\ (Prim2SF v = S754_nan -> is_fixed obj = false ->
      Number.async_set_native_value ctl obj v = Raise ValueError).
Proof.
  intros G. split.
  - intros ctl' H. unfold Number.set_then_read. rewrite H. cbn [bind].
    unfold Number.async_set_native_value in H.
    destruct (Number.native_to_remote obj v) as [n|] eqn:R; [|discriminate].
    cbn [bind] in H. injection H as <-. exists n.
    rewrite (VariableProps.gmem_get_set ctl _ _ obj G).
    split; [reflexivity|]. unfold Number.native_value.
    cbn [gmem_value set_gmem_value is_fixed int_value].
    unfold Number.native_to_remote in R.
    split; [|split].
    + intros F. rewrite F in *. cbn in R. split; [exact R|reflexivity].
    + intros F. now rewrite F.
    + intros other N. now apply gmem_get_set_other.
  - intros N F. unfold Number.async_set_native_value, Number.native_to_remote.
    rewrite F. cbn. unfold int_of_float. now rewrite N.
Qed.

Lemma set_value_stores_int_witness :
  let count := {| gmem_id := 6; gmem_name := "Scene"; tag_type := "Number";
                  gmem_value := VInt 0; is_fixed := false |} in
  Number.set_then_read [count] count 0x1.ep+1%float = Ok (VInt 3).
Proof.
  intros count.
  destruct (set_value_stores_int [count] count 0x1.ep+1%float eq_refl)
    as [H _].
  destruct (H _ eq_refl) as (n & _ & P & _).
  destruct (P eq_refl) as [I R]. rewrite R. f_equal. f_equal.
  vm_compute in I. now injection I.
Defined.

End VariableMoreProps.

(** ** device.py: further properties *)

Module DeviceMoreProps.
Import Vantage DeviceRegistry Device Spec DeviceSpec MoreSpec PyFacts.
Import DeviceProps.

Lemma split_tail_none (sep : ascii) (s : string) :
  split_tail sep s = None <-> no_char sep s.
Proof.
  induction s as [|c s IH]; cbn; [tauto|].
  destruct (Ascii.eqb c sep); [split; [discriminate|intros [[=] _]]|].
  rewrite IH. tauto.
Qed.

Lemma split_tail_some (sep : ascii) (s rest : string) :
  split_tail sep s = Some rest ->
  s = (split_head sep s ++ String sep rest)%string
  /\ no_char sep (split_head sep s).
Proof.
  induction s as [|c s IH]; cbn; [discriminate|].
  destruct (Ascii.eqb c sep) eqn:E.
  - apply Ascii.eqb_eq in E. subst c. intros [= ->]. cbn. auto.
  - intros H. destruct (IH H) as [E1 E2]. cbn. rewrite E.
    split; [now rewrite <- E1|auto].
Qed.

Lemma split_head_app (sep : ascii) (s1 s2 : string) :
  no_char sep s1 -> split_head sep (s1 ++ String sep s2) = s1.
Proof.
  induction s1 as [|c s1 IH]; cbn.
  - now rewrite Ascii.eqb_refl.
  - intros [Hc Hs]. rewrite Hc. now rewrite IH.
Qed.

(** X11: a type string without a dot gives manufacturer ["Vantage"] and
    the whole string as model; one with a dot is cut at its first dot:
    the manufacturer has no dot, and manufacturer, dot and model put
    together give the type string back. *)
Theorem manufacturer_model_split (t : string) :
  (no_char "." t -> manufacturer_model t = ("Vantage", t))
  /\ (~ no_char "." t ->
      t = (fst (manufacturer_model t)
           ++ String "." (snd (manufacturer_model t)))%string
      /\ no_char "." (fst (manufacturer_model t))).
Proof.
  unfold manufacturer_model, split_once. split.
  - intros H. apply split_tail_none in H. now rewrite H.
  - intros H. destruct (split_tail "." t) as [rest|] eqn:E.
    + cbn. now apply split_tail_some.
    + exfalso. apply H. now apply split_tail_none.
Qed.

Lemma manufacturer_model_split_witness :
  manufacturer_model "Acme.Dimmer.v2" = ("Acme", "Dimmer.v2")
  /\ no_char "." (fst (manufacturer_model "Acme.Dimmer.v2")).
Proof.
  split; [reflexivity|].
  apply (manufacturer_model_split "Acme.Dimmer.v2").
  cbn. intros (_ & _ & _ & _ & [=] & _).
Defined.

Section WithDomain.

Variable DOMAIN : string.

Local Abbreviation ident := (device_identifier DOMAIN).

(** X12: the object id is read back from the identifier that encodes it,
    also when a suffix follows after a colon, and two objects get the
    same identifier only if they have the same id. *)
Theorem device_id_round_trip (z : Z) (suffix : string) :
  vantage_id_of (snd (ident z)) = Ok z
  /\ vantage_id_of (snd (ident z) ++ String ":" suffix) = Ok z
  /\ (forall z', ident z = ident z' -> z = z').
Proof.
  unfold vantage_id_of, device_identifier. cbn [snd]. split; [|split].
  - rewrite split_head_str. apply int_of_str_str.
  - rewrite (split_head_app ":" (str z) suffix (str_no_colon z)).
    apply int_of_str_str.
  - intros z' [= E]. now apply str_inj.
Qed.

Variable client : Client.
Variable entry : string.

(** The two ways [register_items] is called: without extra info, or with
    the firmware version of a master. *)
Lemma add_device_call (extra : option extra_info_fn) (reg reg1 : registry)
    (obj : SystemObject) :
  extra = None \/ (exists version_of,
                     extra = Some (extra_master_info version_of)) ->
  add_device DOMAIN client entry extra reg obj = Ok reg1 ->
  exists info,
    identifiers info = Some [ident (obj_id obj)]
    /\ reg1 = async_get_or_create reg entry info.
Proof.
  unfold add_device. intros [->|(version_of & ->)].
  - cbn. intros [= <-]. eexists. split; [|reflexivity]. reflexivity.
  - unfold extra_master_info. destruct (version_of obj) as [v|];
      cbn; [|discriminate].
    intros [= <-]. eexists. split; [|reflexivity]. reflexivity.
Qed.

Lemma filter_touched (info : DeviceInfo) (i : identifier) (reg : registry) :
  identifiers info = Some [i] ->
  filter (fun x => negb (has_identifier i x))
    (map (DeviceSpec.touch entry info i) reg)
  = filter (fun x => negb (has_identifier i x)) reg.
Proof.
  intros K. induction reg as [|x reg IH]; [reflexivity|]. cbn [map filter].
  rewrite (touch_has entry info i K), IH.
  destruct (has_identifier i x) eqn:E; [reflexivity|].
  unfold DeviceSpec.touch. now rewrite E.
Qed.

(** X13: on a well-formed registry, adding (or updating) the record of an
    object and then deleting it leaves exactly what deleting it right
    away would have left: the records of all other objects, with their
    keys, identifiers and claims as they were. *)
Theorem add_then_delete (extra : option extra_info_fn) (reg reg1 : registry)
    (obj : SystemObject) :
  registry_wf DOMAIN reg ->
  extra = None \/ (exists version_of,
                     extra = Some (extra_master_info version_of)) ->
  handle_device_event DOMAIN client entry extra reg OBJECT_ADDED obj
  = Ok reg1 ->
  handle_device_event DOMAIN client entry extra reg1 OBJECT_DELETED obj
  = Ok (remove_device DOMAIN reg obj)
  /\ remove_device DOMAIN reg obj
     = filter (fun x => negb (has_identifier (ident (obj_id obj)) x)) reg.
Proof.
  intros W X H. unfold handle_device_event in *. cbn [VantageEvent_eqb] in *.
  destruct (add_device_call extra reg reg1 obj X H) as (info & K & ->).
  pose proof (get_or_create_wf DOMAIN entry info _ K reg W) as W1.
  rewrite (remove_device_filter DOMAIN _ obj W1).
  rewrite (remove_device_filter DOMAIN reg obj W).
  split; [|reflexivity]. f_equal.
  rewrite (get_or_create_shape DOMAIN entry info _ K reg W).
  rewrite filter_app, (filter_touched info _ reg K).
  unfold DeviceSpec.created.
  destruct (existsb (has_identifier (ident (obj_id obj))) reg);
    [apply app_nil_r|].
  cbn [filter]. rewrite (has_new entry info _ K). apply app_nil_r.
Qed.

(** X14: on a well-formed registry, adding or updating the record of an
    object keeps every record key and every record's identifiers, in
    order; it appends one record, answering to the object's identity
    alone, exactly when no record answered to that identity before.
    Afterwards exactly one record answers to it. *)
Theorem add_device_appends_at_most_one (extra : option extra_info_fn)
    (reg reg1 : registry) (obj : SystemObject) :
  registry_wf DOMAIN reg ->
  extra = None \/ (exists version_of,
                     extra = Some (extra_master_info version_of)) ->
  add_device DOMAIN client entry extra reg obj = Ok reg1 ->
  let fresh :=
    if existsb (has_identifier (ident (obj_id obj))) reg then []
    else [new_entry (fresh_id reg)] in
  map dev_id reg1 = (map dev_id reg ++ map dev_id fresh)%list
  /\ map dev_identifiers reg1
     = (map dev_identifiers reg
        ++ map (fun _ => [ident (obj_id obj)]) fresh)%list
  /\ count (ident (obj_id obj)) reg1 = 1%nat.
Proof.
  intros W X H. cbn zeta.
  destruct (add_device_call extra reg reg1 obj X H) as (info & K & ->).
  rewrite (get_or_create_count_one DOMAIN entry info _ K reg W).
  rewrite (get_or_create_shape DOMAIN entry info _ K reg W).
  rewrite !map_app, !map_map.
  rewrite (map_ext _ dev_id (touch_id entry info _)).
  rewrite (map_ext _ dev_identifiers (touch_identifiers entry info _ K)).
  unfold DeviceSpec.created.
  destruct (existsb (has_identifier (ident (obj_id obj))) reg);
    cbn [map]; [auto|].
  rewrite (apply_info_new entry info _ K). auto.
Qed.

(** The record data of a call does not depend on the registry. *)
Lemma add_device_info (extra : option extra_info_fn) (reg reg1 : registry)
    (obj : SystemObject) :
  extra = None \/ (exists version_of,
                     extra = Some (extra_master_info version_of)) ->
  add_device DOMAIN client entry extra reg obj = Ok reg1 ->
  exists info,
    identifiers info = Some [ident (obj_id obj)]
    /\ forall r,
         add_device DOMAIN client entry extra r obj
         = Ok (async_get_or_create r entry info).
Proof.
  unfold add_device. intros [->|(version_of & ->)].
  - cbn. intros _. eexists. split; [|reflexivity]. reflexivity.
  - unfold extra_master_info. destruct (version_of obj) as [v|];
      cbn; [|discriminate].
    intros _. eexists. split; [|reflexivity]. reflexivity.
Qed.

Lemma touch_twice (info : DeviceInfo) (i : identifier) (x : DeviceEntry) :
  identifiers info = Some [i] ->
  DeviceSpec.touch entry info i (DeviceSpec.touch entry info i x)
  = DeviceSpec.touch entry info i x.
Proof.
  intros K. unfold DeviceSpec.touch at 1.
  rewrite (touch_has entry info i K). unfold DeviceSpec.touch.
  destruct (has_identifier i x) eqn:E; [|reflexivity].
  apply (apply_info_twice entry info i K).
Qed.

Lemma get_or_create_twice (info : DeviceInfo) (i : identifier)
    (reg : registry) :
  identifiers info = Some [i] -> registry_wf DOMAIN reg ->
  async_get_or_create (async_get_or_create reg entry info) entry info
  = async_get_or_create reg entry info.
Proof.
  intros K W.
  pose proof (get_or_create_wf DOMAIN entry info i K reg W) as W1.
  pose proof (get_or_create_count_one DOMAIN entry info i K reg W) as C.
  rewrite (get_or_create_shape DOMAIN entry info i K _ W1).
  unfold DeviceSpec.created at 1. rewrite (count_exists i _ C), app_nil_r.
  rewrite (get_or_create_shape DOMAIN entry info i K reg W).
  rewrite map_app, map_map. f_equal.
  - apply map_ext. intros x. now apply touch_twice.
  - unfold DeviceSpec.created.
    destruct (existsb (has_identifier i) reg); [reflexivity|]. cbn [map].
    unfold DeviceSpec.touch. rewrite (has_new entry info i K).
    f_equal. apply (apply_info_twice entry info i K).
Qed.

(** X20: on a well-formed registry, after a notification that is not a
    deletion the same notification again, added or updated, returns the
    registry as it is: the same records with the same keys, identifiers
    and claims.  So repeated notifications never add records. *)
Theorem update_event_idempotent (extra : option extra_info_fn)
    (reg reg1 : registry) (event_type : VantageEvent) (obj : SystemObject) :
  registry_wf DOMAIN reg ->
  extra = None \/ (exists version_of,
                     extra = Some (extra_master_info version_of)) ->
  event_type <> OBJECT_DELETED ->
  handle_device_event DOMAIN client entry extra reg event_type obj
  = Ok reg1 ->
  registry_wf DOMAIN reg1
  /\ forall again, again <> OBJECT_DELETED ->
       handle_device_event DOMAIN client entry extra reg1 again obj
       = Ok reg1.
Proof.
  intros W X N H.
  assert (A : forall ev r, ev <> OBJECT_DELETED ->
                handle_device_event DOMAIN client entry extra r ev obj
                = add_device DOMAIN client entry extra r obj).
  { intros ev r Nev. unfold handle_device_event.
    destruct ev; cbn; congruence. }
  rewrite (A _ _ N) in H.
  destruct (add_device_info extra reg reg1 obj X H) as (info & K & E).
  rewrite E in H. injection H as <-. split.
  - exact (get_or_create_wf DOMAIN entry info _ K reg W).
  - intros again Na. rewrite (A _ _ Na), E. f_equal.
    exact (get_or_create_twice info _ reg K W).
Qed.

(** Records that no call names come through the registration phase as
    they are. *)
Lemma register_all_untouched (steps : list (Z * DeviceInfo)) :
  Forall (keyed DOMAIN) steps ->
  forall reg d,
    registry_wf DOMAIN reg -> In d reg ->
    (forall s, In s steps -> has_identifier (ident (fst s)) d = false) ->
    In d (register_all entry steps reg).
Proof.
  induction 1 as [|s steps K _ IH]; intros reg d W Hd U; [exact Hd|].
  rewrite register_all_cons. apply IH.
  - exact (get_or_create_wf DOMAIN entry _ _ K reg W).
  - rewrite (get_or_create_shape DOMAIN entry _ _ K reg W).
    apply in_or_app. left. apply in_map_iff. exists d. split; [|exact Hd].
    unfold DeviceSpec.touch. now rewrite (U s (or_introl eq_refl)).
  - intros s' Hs'. apply U. now right.
Qed.

Lemma register_all_wf (steps : list (Z * DeviceInfo)) :
  Forall (keyed DOMAIN) steps ->
  forall reg, registry_wf DOMAIN reg ->
              registry_wf DOMAIN (register_all entry steps reg).
Proof.
  induction 1 as [|s steps K _ IH]; intros reg W; [exact W|].
  rewrite register_all_cons. apply IH.
  exact (get_or_create_wf DOMAIN entry _ _ K reg W).
Qed.

Variable version_of : SystemObject -> result string.

Lemma steps_enumerated (s : Z * DeviceInfo) :
  In s (setup_steps DOMAIN client version_of) ->
  exists obj, In obj (enumerated client) /\ fst s = obj_id obj.
Proof.
  unfold setup_steps, enumerated. intros H.
  apply in_app_or in H as [H|H]; apply in_map_iff in H as (o & <- & Ho);
    exists o; (split; [apply in_or_app; auto|reflexivity]).
Qed.

(** X15: setup leaves alone the records it has no business with.  A
    record of the registry that answers to none of the enumerated
    objects' identities is still there after setup, with its key,
    identifiers and claims as they were, unless it is claimed by this
    config entry and encodes an object id the client does not hold; in
    particular a record of another config entry is never removed. *)
Theorem setup_keeps_other_records (reg : registry) :
  registry_wf DOMAIN reg ->
  entry_parses DOMAIN entry reg ->
  versions_known client version_of ->
  exists reg',
    async_setup_devices DOMAIN client entry version_of reg = Ok reg'
    /\ forall d,
         In d reg ->
         (forall obj, In obj (enumerated client) ->
                      has_identifier (ident (obj_id obj)) d = false) ->
         (In d reg' <-> kept DOMAIN client entry d = true)
         /\ (claimed entry d = false -> In d reg').
Proof.
  intros W P V.
  destruct (setup_outcome DOMAIN entry client version_of reg W P V)
    as (_ & _ & E).
  eexists. split; [exact E|]. intros d Hd U.
  assert (R : In d (register_all entry
                      (setup_steps DOMAIN client version_of) reg)).
  { apply register_all_untouched; auto.
    - apply steps_keyed.
    - intros s Hs. destruct (steps_enumerated s Hs) as (o & Ho & ->).
      now apply U. }
  split.
  - rewrite filter_In. tauto.
  - intros C. apply filter_In. split; [exact R|].
    unfold kept. now rewrite C.
Qed.

(** The caller of the state-passing functions sees what the functions of
    [Device] return. *)
Lemma register_items_returned (extra : option extra_info_fn)
    (ctl : controller) (reg : registry) :
  DeviceState.returned
    (DeviceState.register_items DOMAIN client entry extra ctl reg)
  = register_items DOMAIN client entry extra ctl reg.
Proof.
  revert reg. induction ctl as [|o ctl IH]; intros reg; [reflexivity|].
  cbn [DeviceState.register_items register_items].
  destruct (add_device DOMAIN client entry extra reg o); cbn [bind];
    [apply IH|reflexivity].
Qed.

Lemma cleanup_returned (ds : list DeviceEntry) (reg : registry) :
  DeviceState.returned (DeviceState.cleanup DOMAIN client ds reg)
  = cleanup DOMAIN client ds reg.
Proof.
  revert reg. induction ds as [|d ds IH]; intros reg; [reflexivity|].
  cbn [DeviceState.cleanup cleanup].
  destruct (domain_device_id DOMAIN d) as [s|]; cbn [bind]; [|reflexivity].
  destruct (vantage_id_of s); cbn [bind]; [apply IH|reflexivity].
Qed.

Lemma and_then_returned (o : DeviceState.outcome)
    (k : registry -> DeviceState.outcome) (r : result registry)
    (f : registry -> result registry) :
  DeviceState.returned o = r ->
  (forall x, DeviceState.returned (k x) = f x) ->
  DeviceState.returned (DeviceState.and_then o k) = (x <- r ;; f x).
Proof.
  intros <- H. destruct o as [reg [[]|err]]; cbn; [apply H|reflexivity].
Qed.

Lemma setup_returned (reg : registry) :
  DeviceState.returned
    (DeviceState.async_setup_devices DOMAIN client entry version_of reg)
  = async_setup_devices DOMAIN client entry version_of reg.
Proof.
  unfold DeviceState.async_setup_devices, async_setup_devices.
  repeat (apply and_then_returned;
          [apply register_items_returned|intros ?]).
  apply cleanup_returned.
Qed.

Lemma register_items_state_masters (ctl : controller) (reg : registry) :
  (forall m, In m ctl -> exists v, version_of m = Ok v) ->
  DeviceState.register_items DOMAIN client entry
    (Some (extra_master_info version_of)) ctl reg
  = (register_all entry (map (master_step DOMAIN client version_of) ctl) reg,
     Ok tt).
Proof.
  revert reg. induction ctl as [|o ctl IH]; intros reg V; [reflexivity|].
  destruct (V o (or_introl eq_refl)) as [v Hv].
  cbn [DeviceState.register_items map]. unfold add_device, extra_master_info.
  rewrite Hv. cbn [bind].
  rewrite IH by (intros m Hm; apply V; now right).
  unfold master_step at 2. rewrite Hv. reflexivity.
Qed.

Lemma register_items_state_app (extra : option extra_info_fn)
    (pre rest : controller) (reg : registry) :
  DeviceState.register_items DOMAIN client entry extra (pre ++ rest)%list reg
  = DeviceState.and_then
      (DeviceState.register_items DOMAIN client entry extra pre reg)
      (DeviceState.register_items DOMAIN client entry extra rest).
Proof.
  revert reg. induction pre as [|o pre IH]; intros reg; [reflexivity|].
  cbn [app DeviceState.register_items].
  destruct (add_device DOMAIN client entry extra reg o);
    [apply IH|reflexivity].
Qed.

(** Keys and identifiers after one call. *)
Lemma get_or_create_keys (info : DeviceInfo) (i : identifier)
    (reg : registry) :
  identifiers info = Some [i] -> registry_wf DOMAIN reg ->
  map dev_id (async_get_or_create reg entry info)
  = (map dev_id reg ++ map dev_id (DeviceSpec.created entry info i reg))%list
  /\ map dev_identifiers (async_get_or_create reg entry info)
     = (map dev_identifiers reg
        ++ map dev_identifiers (DeviceSpec.created entry info i reg))%list.
Proof.
  intros K W. rewrite (get_or_create_shape DOMAIN entry info i K reg W).
  rewrite !map_app, !map_map.
  rewrite (map_ext _ dev_id (touch_id entry info i)).
  rewrite (map_ext _ dev_identifiers (touch_identifiers entry info i K)).
  split; reflexivity.
Qed.

(** X16: when the version query of a master fails, those of the masters
    enumerated before it having answered, setup raises that very
    exception and leaves the registry as the registration of the masters
    before it made it.  On a well-formed registry this means: every
    record that was there is still there under its key, with its
    identifiers; the only records added are those of masters enumerated
    before the failing one; so no module, port device or station has been
    registered and the clean-up loop has removed nothing. *)
Theorem setup_version_failure (reg : registry) (pre post : controller)
    (m : SystemObject) (e : exn) :
  masters client = (pre ++ m :: post)%list ->
  (forall x, In x pre -> exists v, version_of x = Ok v) ->
  version_of m = Raise e ->
  async_setup_devices DOMAIN client entry version_of reg = Raise e
  /\ exists left,
       DeviceState.async_setup_devices DOMAIN client entry version_of reg
       = (left, Raise e)
       /\ left
          = register_all entry
              (map (master_step DOMAIN client version_of) pre) reg
       /\ (registry_wf DOMAIN reg ->
           exists added,
             map dev_id left = (map dev_id reg ++ map dev_id added)%list
             /\ map dev_identifiers left
                = (map dev_identifiers reg ++ map dev_identifiers added)%list
             /\ forall d, In d added ->
                  exists o, In o pre /\ dev_identifiers d = [ident (obj_id o)]).
Proof.
  intros M Hpre Hm.
  assert (S : DeviceState.async_setup_devices DOMAIN client entry version_of
                reg
              = (register_all entry
                   (map (master_step DOMAIN client version_of) pre) reg,
                 Raise e)).
  { unfold DeviceState.async_setup_devices. rewrite M.
    rewrite register_items_state_app.
    rewrite (register_items_state_masters pre reg Hpre).
    cbn [DeviceState.and_then DeviceState.register_items].
    unfold add_device, extra_master_info. rewrite Hm. reflexivity. }
  split.
  - rewrite <- setup_returned, S. reflexivity.
  - eexists. split; [exact S|]. split; [reflexivity|].
    clear S M Hm. revert reg.
    induction pre as [|o pre IH]; intros reg W.
    + exists []. cbn. now rewrite !app_nil_r.
    + cbn [map]. rewrite register_all_cons.
      assert (K : keyed DOMAIN (master_step DOMAIN client version_of o))
        by apply master_step_keyed.
      pose proof (get_or_create_wf DOMAIN entry _ _ K reg W) as W1.
      destruct (IH (fun x Hx => Hpre x (or_intror Hx)) _ W1)
        as (added & I1 & I2 & I3).
      destruct (get_or_create_keys _ _ reg K W) as (J1 & J2).
      exists (DeviceSpec.created entry
                (snd (master_step DOMAIN client version_of o))
                (ident (obj_id o)) reg ++ added)%list.
      rewrite I1, I2, J1, J2, !map_app, <- !app_assoc.
      split; [reflexivity|]. split; [reflexivity|].
      intros d Hd. apply in_app_or in Hd as [Hd|Hd].
      * unfold DeviceSpec.created in Hd.
        destruct (existsb _ reg); [easy|]. destruct Hd as [<-|[]].
        exists o. split; [now left|].
        apply (apply_info_new entry _ _ K).
      * destruct (I3 d Hd) as (o' & Ho' & E). exists o'. split; [now right|].
        exact E.
Qed.

Lemma cleanup_raises (ds : list DeviceEntry) (d : DeviceEntry) (e0 : exn) :
  In d ds -> vid_of DOMAIN d = Raise e0 ->
  forall reg,
  exists e, cleanup DOMAIN client ds reg = Raise e
            /\ (e = RuntimeError \/ e = ValueError).
Proof.
  intros Hd Hv. induction ds as [|x ds IH]; [easy|]. intros reg.
  cbn [cleanup].
  destruct (domain_device_id DOMAIN x) as [s|e] eqn:Dx; cbn [bind].
  - destruct (vantage_id_of s) as [z|e] eqn:Vz; cbn [bind].
    + destruct Hd as [->|Hd]; [|now apply IH].
      exfalso. unfold vid_of in Hv. rewrite Dx in Hv. cbn [bind] in Hv.
      now rewrite Vz in Hv.
    + exists e. split; [reflexivity|]. right.
      exact (int_of_str_raises _ e Vz).
  - exists e. split; [reflexivity|]. left.
    unfold domain_device_id in Dx.
    destruct (find (fun i => String.eqb (fst i) DOMAIN)
                (dev_identifiers x)); [discriminate|].
    now injection Dx.
Qed.

(** X17: a record claimed by the config entry whose identifier of the
    domain is missing, or is one whose part before the first colon [int]
    does not accept, makes setup fail: it raises [RuntimeError] or
    [ValueError] out of the clean-up loop instead of returning. *)
Theorem setup_unparseable_record (reg : registry) (d : DeviceEntry)
    (e0 : exn) :
  registry_wf DOMAIN reg ->
  versions_known client version_of ->
  In d reg -> claimed entry d = true -> vid_of DOMAIN d = Raise e0 ->
  exists e,
    async_setup_devices DOMAIN client entry version_of reg = Raise e
    /\ (e = RuntimeError \/ e = ValueError).
Proof.
  intros W V Hd C Hv.
  rewrite (setup_as_steps DOMAIN client entry version_of reg V).
  apply (cleanup_raises _ d e0); [|exact Hv].
  apply filter_In. split; [|exact C].
  apply register_all_untouched; auto; [apply steps_keyed|].
  intros s Hs.
  destruct (has_identifier (ident (fst s)) d) eqn:E; [|reflexivity].
  rewrite (vid_of_identifier DOMAIN d (fst s)) in Hv; [discriminate| |].
  - intros a b. now apply (wf_single _ _ W d).
  - now apply has_identifier_In.
Qed.

End WithDomain.

Lemma add_then_delete_witness :
  exists reg1,
    handle_device_event "vantage" sample_client "entry-1" None []
      OBJECT_ADDED sample_keypad = Ok reg1
    /\ handle_device_event "vantage" sample_client "entry-1" None reg1
         OBJECT_DELETED sample_keypad = Ok [].
Proof.
  eexists. split; [reflexivity|].
  apply (add_then_delete "vantage" sample_client "entry-1" None []
           _ sample_keypad (empty_wf "vantage") (or_introl eq_refl) eq_refl).
Defined.

Lemma add_device_appends_at_most_one_witness :
  exists reg1,
    add_device "vantage" sample_client "entry-1" None
      [sample_keypad_record] sample_keypad = Ok reg1
    /\ map dev_id reg1 = [3%nat].
Proof.
  eexists. split; [reflexivity|].
  apply (add_device_appends_at_most_one "vantage" sample_client "entry-1"
           None [sample_keypad_record] _ sample_keypad
           (singleton_wf "vantage" sample_keypad_record _ eq_refl)
           (or_introl eq_refl) eq_refl).
Defined.

Lemma update_event_idempotent_witness :
  exists reg1,
    handle_device_event "vantage" sample_client "entry-1" None []
      OBJECT_ADDED sample_keypad = Ok reg1
    /\ handle_device_event "vantage" sample_client "entry-1" None reg1
         OBJECT_UPDATED sample_keypad = Ok reg1.
Proof.
  eexists. split; [reflexivity|].
  apply (update_event_idempotent "vantage" sample_client "entry-1" None []
           _ OBJECT_ADDED sample_keypad (empty_wf "vantage")
           (or_introl eq_refl)); [discriminate|reflexivity|discriminate].
Defined.

Lemma setup_keeps_other_records_witness :
  exists reg',
    async_setup_devices "vantage" sample_client_without_keypad "entry-1"
      sample_version [other_entry_record] = Ok reg'
    /\ In other_entry_record reg'.
Proof.
  assert (P : entry_parses "vantage" "entry-1" [other_entry_record])
    by (intros d [<-|[]] [=]).
  assert (V : versions_known sample_client_without_keypad sample_version)
    by (intros m _; eexists; reflexivity).
  destruct (setup_keeps_other_records "vantage"
              sample_client_without_keypad "entry-1" sample_version
              [other_entry_record]
              (singleton_wf "vantage" other_entry_record _ eq_refl) P V)
    as (reg' & E & K).
  exists reg'. split; [exact E|].
  apply (K other_entry_record (or_introl eq_refl)); [|reflexivity].
  intros obj [<-|[<-|[]]]; reflexivity.
Defined.

Lemma setup_version_failure_witness :
  let timeout :=
    Exn "ClientTimeoutError"
      ["TimeoutError"; "ClientConnectionError"; "ClientError"; "Exception"]
      None in
  let second_master :=
    {| obj_id := 2; obj_name := "Controller 2";
       display_name := "Controller 2"; vantage_type := "Master";
       is_master := true; is_station := false; obj_area := None;
       obj_serial := None; obj_parent := None; obj_master := 2;
       application_version := "" |} in
  let client :=
    {| masters := [sample_master; second_master];
       modules := [sample_module]; port_devices := [];
       stations := [sample_keypad]; back_boxes := []; areas := [];
       others := [] |} in
  let version_of o :=
    if obj_id o =? 2 then Raise timeout else Ok (application_version o) in
  exists left,
    DeviceState.async_setup_devices "vantage" client "entry-1" version_of []
    = (left, Raise timeout)
    /\ map dev_identifiers left = [[("vantage", "1")]].
Proof.
  intros timeout second_master client version_of.
  destruct (setup_version_failure "vantage" client "entry-1" version_of []
              [sample_master] [] second_master timeout eq_refl)
    as (_ & left & S & E & _).
  - intros x [<-|[]]. eexists. reflexivity.
  - reflexivity.
  - exists left. split; [exact S|]. rewrite E. reflexivity.
Defined.

Lemma setup_unparseable_record_witness :
  exists e,
    async_setup_devices "vantage" sample_client "entry-1" sample_version
      [unparseable_record] = Raise e
    /\ (e = RuntimeError \/ e = ValueError).
Proof.
  assert (V : versions_known sample_client sample_version)
    by (intros m _; eexists; reflexivity).
  apply (setup_unparseable_record "vantage" sample_client "entry-1"
           sample_version [unparseable_record] unparseable_record ValueError
           (singleton_wf "vantage" unparseable_record _ eq_refl) V
           (or_introl eq_refl) eq_refl eq_refl).
Defined.

End DeviceMoreProps.

(** ** __init__.py: the client store *)

Module StoreProps.
Import Integration Store.

Section WithClient.

Variable client : Type.
Variable client_truthy : client -> bool.

Local Abbreviation dict := (list (string * client)).

Lemma dict_get_set (d : dict) (key : string) (c : client) :
  dict_get client (dict_set client d key c) key = Some c.
Proof.
  unfold dict_get. induction d as [|[k v] d IH]; cbn.
  - now rewrite String.eqb_refl.
  - destruct (String.eqb k key) eqn:E; cbn; rewrite E; [reflexivity|].
    exact IH.
Qed.

Lemma dict_get_set_other (d : dict) (key other : string) (c : client) :
  other <> key ->
  dict_get client (dict_set client d key c) other = dict_get client d other.
Proof.
  intros N. unfold dict_get. induction d as [|[k v] d IH]; cbn.
  - apply String.eqb_neq in N. rewrite String.eqb_sym in N. now rewrite N.
  - destruct (String.eqb k key) eqn:E; cbn.
    + apply String.eqb_eq in E. subst k.
      assert (X : String.eqb key other = false)
        by (apply String.eqb_neq; congruence).
      now rewrite X.
    + destruct (String.eqb k other); [reflexivity|]. exact IH.
Qed.

Lemma dict_get_remove (d : dict) (key : string) :
  dict_get client (dict_remove client d key) key = None.
Proof.
  unfold dict_get, dict_remove. induction d as [|[k v] d IH]; cbn;
    [reflexivity|].
  destruct (String.eqb k key) eqn:E; cbn; [exact IH|].
  rewrite E. exact IH.
Qed.

Lemma dict_get_remove_other (d : dict) (key other : string) :
  other <> key ->
  dict_get client (dict_remove client d key) other = dict_get client d other.
Proof.
  intros N. unfold dict_get, dict_remove.
  induction d as [|[k v] d IH]; cbn; [reflexivity|].
  destruct (String.eqb k key) eqn:E; cbn.
  - apply String.eqb_eq in E. subst k.
    assert (X : String.eqb key other = false)
      by (apply String.eqb_neq; congruence).
    rewrite X. exact IH.
  - destruct (String.eqb k other); [reflexivity|]. exact IH.
Qed.

Lemma dict_remove_twice (d : dict) (key : string) :
  dict_remove client (dict_remove client d key) key
  = dict_remove client d key.
Proof.
  unfold dict_remove. induction d as [|[k v] d IH]; cbn; [reflexivity|].
  destruct (String.eqb k key) eqn:E; cbn; [exact IH|].
  rewrite E. cbn. now rewrite IH.
Qed.

(** X18: once the client has been created, setup stores it under the
    entry id before anything can fail: whether setup then returns or
    raises, the store holds the client for this entry and the clients of
    the other entries as before.  The outcome is that of setup without
    the store.  When creating the client raises, the store is left as it
    was. *)
Theorem setup_stores_client (data : hass_data client) (entry_id : string)
    (c : client) (s : setup_steps) :
  (create_client s = Ok tt ->
   snd (Store.async_setup_entry client data entry_id c s)
   = Integration.async_setup_entry s
   /\ exists d,
       fst (Store.async_setup_entry client data entry_id c s) = Some d
       /\ dict_get client d entry_id = Some c
       /\ forall other, other <> entry_id ->
             dict_get client d other
             = dict_get client (match data with Some d0 => d0 | None => [] end)
                 other)
  /\ (forall e, create_client s = Raise e ->
        Store.async_setup_entry client data entry_id c s = (data, Raise e)).
Proof.
  unfold Store.async_setup_entry, Integration.async_setup_entry. split.
  - intros ->. cbn [bind fst snd]. split; [reflexivity|].
    eexists. split; [reflexivity|]. split.
    + apply dict_get_set.
    + intros other N. now apply dict_get_set_other.
  - intros e ->. reflexivity.
Qed.

(** X19: unloading an entry takes its client out of the store and closes
    it, once: the client is closed exactly when one was stored for the
    entry (and is truthy), the clients of the other entries stay, and a
    second unload closes nothing and leaves the store as it is.  With no
    store for the domain at all, unloading raises [KeyError]. *)
Theorem unload_closes_once (d : dict) (entry_id : string)
    (unload_platforms : result bool) :
  let '(data', closed, r) :=
    async_unload_entry client client_truthy (Some d) entry_id
      unload_platforms in
  r = unload_platforms
  /\ closed
     = match dict_get client d entry_id with
       | Some c => if client_truthy c then [c] else []
       | None => []
       end
  /\ data' = Some (dict_remove client d entry_id)
  /\ dict_get client (dict_remove client d entry_id) entry_id = None
  /\ (forall other, other <> entry_id ->
        dict_get client (dict_remove client d entry_id) other
        = dict_get client d other)
  /\ async_unload_entry client client_truthy data' entry_id
       unload_platforms
     = (data', [], unload_platforms)
  /\ async_unload_entry client client_truthy None entry_id
       unload_platforms
     = (None, [], Raise KeyError).
Proof.
  cbn. split; [reflexivity|]. split; [reflexivity|]. split; [reflexivity|].
  split; [apply dict_get_remove|]. split.
  - intros other N. now apply dict_get_remove_other.
  - split; [|reflexivity].
    rewrite dict_get_remove, dict_remove_twice. reflexivity.
Qed.

End WithClient.

Lemma setup_stores_client_witness :
  let steps :=
    {| create_client := Ok tt; initialize := Raise ValueError;
       setup_devices := Ok tt; setup_events := Ok tt;
       forward_entry_setups := Ok tt; cleanup_entities := Ok tt |} in
  exists d,
    fst (Store.async_setup_entry nat None "entry-1" 7%nat steps) = Some d
    /\ dict_get nat d "entry-1" = Some 7%nat.
Proof.
  intros steps.
  destruct (setup_stores_client nat None "entry-1" 7%nat steps) as [H _].
  destruct (H eq_refl) as (_ & d & E & G & _).
  exists d. auto.
Defined.

End StoreProps.
